(** * dworp.plot : VariablePlotter

    A shallow embedding of [dworp/plot.py] (class [VariablePlotter]) and the
    properties of its sample storage, window selection, axis-limit policy,
    construction checks and frame export.

    Conventions of the embedding
    - Python [int] is [Z]; Python [float] (and every numeric attribute read
      off the environment) is an exact rational [Q]; an [int] compared with a
      float is injected with [inject_Z], which is how Python compares them.
    - A [dict] is an association list in insertion order ([Dict.set] updates
      in place when the key is present, as Python does).
    - A method of the plotter is a function in the monad [M]: it threads the
      plotter object, records every call made to matplotlib in a trace, and
      either returns or raises.
    - What matplotlib answers during one hook call (the number of the new
      figure, the automatic y-limits, the list of open figures) is an input
      of the hook, the record [Backend].
    - Two backend calls can fail: [plt.plot] raises ValueError on x and y of
      different lengths, and [self.fig.axes[0]] raises IndexError on a figure
      that has no axes.  The other backend calls return; the style tokens
      are taken to be format strings the backend accepts. *)

From Stdlib Require Import List String Ascii ZArith QArith Qabs Qminmax Bool Lia.
From Stdlib Require Import DecimalString DecimalPos DecimalN.
Import ListNotations.

Open Scope string_scope.
Open Scope list_scope.
Open Scope Z_scope.

(** ** Exceptions and results *)

Inductive exn : Type :=
| AssertionError
| AttributeError (attr : string)
| IndexError
| KeyError (key : string)
| ValueError (msg : string)
| TypeError
| SystemExit.

Inductive result (A : Type) : Type :=
| Ok (a : A)
| Raise (e : exn).

Arguments Ok {A} a.
Arguments Raise {A} e.

(** ** Python values used by the class *)

(** An argument that is either one string or a list of strings
    ([isinstance(x, str)] decides). *)
Inductive str_or_list : Type :=
| Str (s : string)
| Lst (l : list string).

Definition str_truthy (s : string) : bool :=
  match s with EmptyString => false | _ => true end.

Definition opt_str_truthy (o : option string) : bool :=
  match o with Some s => str_truthy s | None => false end.

(** ** Dictionaries in insertion order *)

Module Dict.

Definition t (V : Type) : Type := list (string * V).

Fixpoint get {V} (d : t V) (k : string) : option V :=
  match d with
  | [] => None
  | (k', v) :: r => if String.eqb k k' then Some v else get r k
  end.

(** [d[k] = v]: replaces the value where the key already is, else appends. *)
Fixpoint set {V} (d : t V) (k : string) (v : V) : t V :=
  match d with
  | [] => [(k, v)]
  | (k', v') :: r =>
      if String.eqb k k' then (k', v) :: r else (k', v') :: set r k v
  end.

Definition keys {V} (d : t V) : list string := map fst d.
Definition values {V} (d : t V) : list V := map snd d.
Definition items {V} (d : t V) : list (string * V) := d.

(** [dict(pairs)] *)
Definition of_pairs {V} (l : list (string * V)) : t V :=
  fold_left (fun d kv => set d (fst kv) (snd kv)) l [].

End Dict.

(** ** Builtins *)

Definition Qltb (a b : Q) : bool := negb (Qle_bool b a).

(** [a < b] on lists of numbers: the first position where the two differ
    decides; a proper prefix is smaller. *)
Fixpoint list_ltb (a b : list Q) : bool :=
  match a, b with
  | _, [] => false
  | [], _ :: _ => true
  | x :: a', y :: b' => if Qeq_bool x y then list_ltb a' b' else Qltb x y
  end.

Section MinMax.
Context {A : Type} (ltb : A -> A -> bool).

(** [min(iterable)]: the first smallest element. *)
Fixpoint min_from (best : A) (l : list A) : A :=
  match l with
  | [] => best
  | x :: r => min_from (if ltb x best then x else best) r
  end.

Definition py_min (l : list A) : result A :=
  match l with
  | [] => Raise (ValueError "min() arg is an empty sequence")
  | x :: r => Ok (min_from x r)
  end.

(** [max(iterable)]: the first largest element. *)
Fixpoint max_from (best : A) (l : list A) : A :=
  match l with
  | [] => best
  | x :: r => max_from (if ltb best x then x else best) r
  end.

Definition py_max (l : list A) : result A :=
  match l with
  | [] => Raise (ValueError "max() arg is an empty sequence")
  | x :: r => Ok (max_from x r)
  end.

(** [min(a, b)] and [max(a, b)] *)
Definition py_min2 (a b : A) : A := min_from a [b].
Definition py_max2 (a b : A) : A := max_from a [b].
End MinMax.

(** [l[start:]] *)
Definition slice_from {A} (start : Z) (l : list A) : list A :=
  let len := Z.of_nat (List.length l) in
  let lo := if start <? 0 then Z.max (len + start) 0 else Z.min start len in
  skipn (Z.to_nat lo) l.

(** [l * n] for a list [l] *)
Definition list_mul {A} (l : list A) (n : nat) : list A :=
  List.concat (repeat l n).

(** [sep.join(l)] *)
Fixpoint str_join (sep : string) (l : list string) : string :=
  match l with
  | [] => ""
  | [s] => s
  | s :: r => (s ++ sep ++ str_join sep r)%string
  end.

(** ["{0:05d}".format(n)]: decimal digits, zero-filled after the sign up to
    a total width of 5; longer numbers are not cut. *)
Definition digits (n : N) : string := NilZero.string_of_uint (N.to_uint n).

Fixpoint zeros (k : nat) : string :=
  match k with O => "" | S k' => String "0" (zeros k') end.

Definition format_05d (n : Z) : string :=
  let ds := digits (Z.abs_N n) in
  if n <? 0
  then ("-" ++ zeros (4 - String.length ds) ++ ds)%string
  else (zeros (5 - String.length ds) ++ ds)%string.

Fixpoint ends_with_slash (s : string) : bool :=
  match s with
  | EmptyString => false
  | String c EmptyString => Ascii.eqb c "/"
  | String _ r => ends_with_slash r
  end.

(** [os.path.join(a, b)] (posix) for a relative [b] *)
Definition path_join (a b : string) : string :=
  if (negb (str_truthy a) || ends_with_slash a)%bool
  then (a ++ b)%string
  else (a ++ "/" ++ b)%string.

(** ** The error monad of pure helpers *)

Definition rbind {A B} (m : result A) (f : A -> result B) : result B :=
  match m with
  | Ok a => f a
  | Raise e => Raise e
  end.

Notation "'let?' x ':=' m 'in' k" := (rbind m (fun x => k))
  (at level 10, x name, m at level 100, k at level 200).

(** ** The plotter object *)

Record VariablePlotter : Type := mkPlotter {
  var_names : list string;
  fmt : Dict.t string;
  scrolling : Z;
  title : string;
  xlabel : string;
  ylabel : string;
  xlim : option (Q * Q);
  ylim : option (Q * Q);
  legend : option string;          (* [None] is [False] *)
  pause : Q;
  output_dir : option string;
  fig : option nat;                (* the figure, by its number *)
  axes_margin : Q;
  time : list Z;
  data : Dict.t (list Q)
}.

Definition set_time (p : VariablePlotter) (t : list Z) : VariablePlotter :=
  mkPlotter (var_names p) (fmt p) (scrolling p) (title p) (xlabel p) (ylabel p)
            (xlim p) (ylim p) (legend p) (pause p) (output_dir p) (fig p)
            (axes_margin p) t (data p).

Definition set_data (p : VariablePlotter) (d : Dict.t (list Q)) : VariablePlotter :=
  mkPlotter (var_names p) (fmt p) (scrolling p) (title p) (xlabel p) (ylabel p)
            (xlim p) (ylim p) (legend p) (pause p) (output_dir p) (fig p)
            (axes_margin p) (time p) d.

Definition set_fig (p : VariablePlotter) (f : option nat) : VariablePlotter :=
  mkPlotter (var_names p) (fmt p) (scrolling p) (title p) (xlabel p) (ylabel p)
            (xlim p) (ylim p) (legend p) (pause p) (output_dir p) f
            (axes_margin p) (time p) (data p).

(** ** Construction *)

(** The arguments of [__init__]. *)
Record Args : Type := mkArgs {
  a_var : str_or_list;
  a_fmt : str_or_list;
  a_scrolling : Z;
  a_title : option string;
  a_xlabel : string;
  a_ylabel : option string;
  a_xlim : option (Q * Q);
  a_ylim : option (Q * Q);
  a_legend : option string;
  a_pause : Q;
  a_output_dir : option string
}.

(** The defaults of the signature: [fmt="b", scrolling=0, title=None,
    xlabel="Time", ylabel=None, xlim=None, ylim=None, legend=False,
    pause=0.001, output_dir=None]. *)
Definition default_args (var : str_or_list) : Args :=
  mkArgs var (Str "b") 0 None "Time" None None None None (1 # 1000) None.

Definition as_list (x : str_or_list) : list string :=
  match x with
  | Str s => [s]
  | Lst l => l
  end.

Definition _prepare_format_option (names : list string) (fmt : str_or_list)
  : result (Dict.t string) :=
  let format_ := as_list fmt in
  if (Nat.eqb (List.length format_) 1
      || Nat.eqb (List.length format_) (List.length names))%bool
  then
    let format_ :=
      if negb (Nat.eqb (List.length format_) (List.length names))
      then list_mul format_ (List.length names)
      else format_ in
    Ok (Dict.of_pairs (combine names format_))
  else Raise AssertionError.

Definition _prepare_default_title (names : list string) : result string :=
  if Nat.eqb (List.length names) 0
  then match nth_error names 0 with
       | Some s => Ok s
       | None => Raise IndexError
       end
  else Ok (str_join " & " names).

(** [x if x else default()] for an optional string *)
Definition or_default (x : option string) (dflt : result string) : result string :=
  match x with
  | Some s => if str_truthy s then Ok s else dflt
  | None => dflt
  end.

Definition __init__ (a : Args) : result VariablePlotter :=
  let names := as_list (a_var a) in
  let? fmt := _prepare_format_option names (a_fmt a) in
  let? title := or_default (a_title a) (_prepare_default_title names) in
  let? ylabel := or_default (a_ylabel a) (_prepare_default_title names) in
  Ok {| var_names := names;
        fmt := fmt;
        scrolling := a_scrolling a;
        title := title;
        xlabel := a_xlabel a;
        ylabel := ylabel;
        xlim := a_xlim a;
        ylim := a_ylim a;
        legend := a_legend a;
        pause := a_pause a;
        output_dir := a_output_dir a;
        fig := None;
        axes_margin := 1 # 100;
        time := [];
        data := Dict.of_pairs (map (fun name => (name, [])) names) |}.

(** ** Calls made to matplotlib, and its answers *)

Inductive event : Type :=
| Ion
| NewFigure (n : nat)
| SetWindowTitle (s : string)
| Figure (n : nat)
| Clf
| Plot (xs : list Z) (ys : list Q) (fmt label : string)
| Legend (loc : string)
| SetXlabel (s : string)
| SetYlabel (s : string)
| SetYlim (lo hi : Q)
| SetXlim (lo hi : Q)
| SetIntegerLocator
| Draw
| Pause (delay : Q)
| Savefig (path : string)
| Close (fig : option nat).

(** What the backend answers during one hook call. *)
Record Backend : Type := mkBackend {
  new_figure : nat;          (* the number of the figure [plt.figure()] makes *)
  get_ylim : Q * Q;          (* [axes.get_ylim()] after the lines are drawn *)
  get_fignums : list nat     (* [plt.get_fignums()] after the pause *)
}.

(** The environment: its attributes by name. *)
Definition Env : Type := Dict.t Q.

(** ** The monad of methods: state, trace of backend calls, exceptions *)

Definition M (A : Type) : Type :=
  VariablePlotter -> result A * VariablePlotter * list event.

Definition ret {A} (a : A) : M A := fun p => (Ok a, p, []).

Definition bind {A B} (m : M A) (f : A -> M B) : M B :=
  fun p =>
    match m p with
    | (Ok a, p1, t1) =>
        match f a p1 with
        | (r, p2, t2) => (r, p2, t1 ++ t2)
        end
    | (Raise e, p1, t1) => (Raise e, p1, t1)
    end.

Definition raise {A} (e : exn) : M A := fun p => (Raise e, p, []).
Definition self : M VariablePlotter := fun p => (Ok p, p, []).
Definition put (p' : VariablePlotter) : M unit := fun _ => (Ok tt, p', []).
Definition call (e : event) : M unit := fun p => (Ok tt, p, [e]).
Definition lift {A} (r : result A) : M A := fun p => (r, p, []).

Notation "x <- m ;; k" := (bind m (fun x => k))
  (at level 61, m at next level, right associativity).
Notation "m ;; k" := (bind m (fun _ => k))
  (at level 61, right associativity).

Fixpoint for_each {A} (l : list A) (body : A -> M unit) : M unit :=
  match l with
  | [] => ret tt
  | x :: r => body x ;; for_each r body
  end.

Definition when (b : bool) (m : M unit) : M unit :=
  if b then m else ret tt.

Definition result_of {A} (x : result A * VariablePlotter * list event) : result A :=
  fst (fst x).
Definition state_of {A} (x : result A * VariablePlotter * list event) : VariablePlotter :=
  snd (fst x).
Definition trace_of {A} (x : result A * VariablePlotter * list event) : list event :=
  snd x.

(** ** Methods *)

(** [getattr(env, name)] *)
Definition getattr (env : Env) (name : string) : M Q :=
  match Dict.get env name with
  | Some v => ret v
  | None => raise (AttributeError name)
  end.

(** [d[name]] *)
Definition getitem {V} (d : Dict.t V) (name : string) : M V :=
  match Dict.get d name with
  | Some v => ret v
  | None => raise (KeyError name)
  end.

(** Line 93: [self.data[name].append(getattr(env, name))] *)
Definition append_value (env : Env) (name : string) : M unit :=
  p <- self ;;
  series <- getitem (data p) name ;;
  v <- getattr env name ;;
  put (set_data p (Dict.set (data p) name (series ++ [v]))).

(** Lines 91-93: [self.time.append(now)] and the loop of appends. *)
Definition record_sample (now : Z) (env : Env) : M unit :=
  p <- self ;;
  put (set_time p (time p ++ [now])) ;;
  for_each (var_names p) (append_value env).

(** Lines 94-99: the series handed to [plt.plot]. *)
Definition select_window (p : VariablePlotter) : list Z * Dict.t (list Q) :=
  if negb (scrolling p =? 0)
  then (slice_from (-1 * scrolling p) (time p),
        map (fun kv => (fst kv, slice_from (-1 * scrolling p) (snd kv)))
            (Dict.items (data p)))
  else (time p, data p).

(** [min(a, b)] and [max(a, b)] on numbers *)
Definition Qpair_min (a b : Q) : Q := py_min2 Qltb a b.
Definition Qpair_max (a b : Q) : Q := py_max2 Qltb a b.

(** Lines 111-116: the value axis. *)
Definition limit_values (bk : Backend) (p : VariablePlotter) : M unit :=
  match ylim p with
  | Some (y0, y1) =>
      let ylim' := get_ylim bk in
      let margin := (axes_margin p * Qabs (snd ylim' - fst ylim'))%Q in
      lowest <- lift (py_min list_ltb (Dict.values (data p))) ;;
      lo <- lift (py_min Qltb lowest) ;;
      let ymin := Qpair_min y0 (lo - margin)%Q in
      highest <- lift (py_max list_ltb (Dict.values (data p))) ;;
      hi <- lift (py_max Qltb highest) ;;
      let ymax := Qpair_max y1 (hi + margin)%Q in
      call (SetYlim ymin ymax)
  | None => ret tt
  end.

(** Lines 117-120: the time axis. *)
Definition limit_times (p : VariablePlotter) : M unit :=
  match xlim p with
  | Some (x0, x1) =>
      tmin <- lift (py_min Z.ltb (time p)) ;;
      let xmin := Qpair_min x0 (inject_Z tmin) in
      tmax <- lift (py_max Z.ltb (time p)) ;;
      let xmax := Qpair_max x1 (inject_Z tmax) in
      call (SetXlim xmin xmax)
  | None => ret tt
  end.

Definition set_axes_limits (bk : Backend) : M unit :=
  p <- self ;;
  limit_values bk p ;;
  limit_times p ;;
  call SetIntegerLocator.

(** After [plt.clf()] the figure has no axes; [plt.plot] and [plt.legend]
    make one.  [self.fig.axes[0]] needs it. *)
Definition first_axes (p : VariablePlotter) (drawn : Dict.t (list Q)) : M unit :=
  match fig p with
  | None => raise (AttributeError "axes")
  | Some _ =>
      match drawn, opt_str_truthy (legend p) with
      | [], false => raise IndexError
      | _, _ => ret tt
      end
  end.

(** What [plt.plot] raises on x and y of different lengths (the message
    goes on with the two shapes). *)
Definition shape_error : exn :=
  ValueError "x and y must have same first dimension".

(** Line 102: [plt.plot(plot_time, data, self.fmt[name], label=name)].  The
    style is looked up before the call; the backend refuses x and y of
    different lengths. *)
Definition plot_line (p : VariablePlotter) (plot_time : list Z)
  (kv : string * list Q) : M unit :=
  f <- getitem (fmt p) (fst kv) ;;
  if Nat.eqb (List.length plot_time) (List.length (snd kv))
  then call (Plot plot_time (snd kv) f (fst kv))
  else raise shape_error.

(** Lines 94-108: draw the window, the legend, the labels, the limits. *)
Definition render (bk : Backend) : M unit :=
  p <- self ;;
  let (plot_time, plot_data) := select_window p in
  for_each (Dict.items plot_data) (plot_line p plot_time) ;;
  match legend p with
  | Some loc => when (str_truthy loc) (call (Legend loc))
  | None => ret tt
  end ;;
  first_axes p plot_data ;;
  call (SetXlabel (xlabel p)) ;;
  call (SetYlabel (ylabel p)) ;;
  set_axes_limits bk.

Definition plot (now : Z) (env : Env) (bk : Backend) : M unit :=
  record_sample now env ;;
  render bk.

Definition prepare (bk : Backend) : M unit :=
  call Ion ;;
  p <- self ;;
  put (set_fig p (Some (new_figure bk))) ;;
  call (NewFigure (new_figure bk)) ;;
  call (SetWindowTitle (title p)).

Definition save (now : Z) : M unit :=
  p <- self ;;
  match output_dir p, fig p with
  | Some dir, Some _ =>
      call (Savefig (path_join dir (format_05d now ++ ".png")%string))
  | Some _, None => raise (AttributeError "savefig")
  | None, _ => raise TypeError
  end.

Definition update (now : Z) (env : Env) (bk : Backend) : M unit :=
  p <- self ;;
  match fig p with
  | Some n => call (Figure n)
  | None => raise (AttributeError "number")
  end ;;
  call Clf ;;
  plot now env bk ;;
  call Draw ;;
  call (Pause (pause p)) ;;
  match get_fignums bk with
  | [] => raise SystemExit
  | _ => ret tt
  end ;;
  when (opt_str_truthy (output_dir p)) (save now).

Definition start (now : Z) (env : Env) (bk : Backend) : M unit :=
  prepare bk ;;
  update now env bk.

Definition step (now : Z) (env : Env) (bk : Backend) : M unit :=
  update now env bk.

Definition stop : M unit :=
  p <- self ;;
  call (Close (fig p)).

(** ** Sequences of hook calls *)

Inductive hook : Type :=
| Start (now : Z) (env : Env) (bk : Backend)
| Step (now : Z) (env : Env) (bk : Backend).

Definition hook_env (c : hook) : Env :=
  match c with
  | Start _ env _ => env
  | Step _ env _ => env
  end.

Definition hook_now (c : hook) : Z :=
  match c with
  | Start now _ _ => now
  | Step now _ _ => now
  end.

Definition hook_backend (c : hook) : Backend :=
  match c with
  | Start _ _ bk => bk
  | Step _ _ bk => bk
  end.

Definition run_hook (c : hook) : M unit :=
  match c with
  | Start now env bk => start now env bk
  | Step now env bk => step now env bk
  end.

(** The object after the calls of [cs], made one after the other whatever
    each of them returned or raised. *)
Fixpoint run_hooks (cs : list hook) (p : VariablePlotter) : VariablePlotter :=
  match cs with
  | [] => p
  | c :: r => run_hooks r (state_of (run_hook c p))
  end.

(** The backend calls made by the calls of [cs], in order. *)
Fixpoint hooks_trace (cs : list hook) (p : VariablePlotter) : list event :=
  match cs with
  | [] => []
  | c :: r => trace_of (run_hook c p) ++ hooks_trace r (state_of (run_hook c p))
  end.

(** What each call of [cs] returned or raised. *)
Fixpoint hooks_results (cs : list hook) (p : VariablePlotter) : list (result unit) :=
  match cs with
  | [] => []
  | c :: r => result_of (run_hook c p) :: hooks_results r (state_of (run_hook c p))
  end.

(** [step] needs the figure that [start] makes. *)
Definition ready (c : hook) (p : VariablePlotter) : Prop :=
  match c with
  | Start _ _ _ => True
  | Step _ _ _ => fig p <> None
  end.

(** ** Observations on a trace *)

Definition saved_files (tr : list event) : list string :=
  flat_map (fun e => match e with Savefig path => [path] | _ => [] end) tr.

Definition plotted (tr : list event) : list (list Z * list Q * string) :=
  flat_map (fun e => match e with
                     | Plot xs ys _ label => [(xs, ys, label)]
                     | _ => []
                     end) tr.

Definition ylim_set (tr : list event) : list (Q * Q) :=
  flat_map (fun e => match e with SetYlim lo hi => [(lo, hi)] | _ => [] end) tr.

Definition xlim_set (tr : list event) : list (Q * Q) :=
  flat_map (fun e => match e with SetXlim lo hi => [(lo, hi)] | _ => [] end) tr.

(** ** Predicates on the object *)

(** Every tracked attribute can be read off [env]. *)
Definition readable (names : list string) (env : Env) : Prop :=
  forall name, In name names -> Dict.get env name <> None.

(** The invariant of construction: one series and one style per tracked
    name, no series for another name, no name with two series. *)
Record wf (p : VariablePlotter) : Prop := mk_wf {
  wf_data : forall name, In name (var_names p) -> Dict.get (data p) name <> None;
  wf_keys : forall name, In name (Dict.keys (data p)) -> In name (var_names p);
  wf_nodup : NoDup (Dict.keys (data p));
  wf_fmt : forall name, In name (var_names p) -> Dict.get (fmt p) name <> None
}.

(** Every series that is kept is as long as the times. *)
Definition level (p : VariablePlotter) : Prop :=
  forall kv, In kv (data p) -> List.length (snd kv) = List.length (time p).

(** As many values recorded for every tracked variable as time points. *)
Definition balanced (p : VariablePlotter) : Prop :=
  forall name, In name (var_names p) ->
    exists series, Dict.get (data p) name = Some series
                   /\ List.length series = List.length (time p).

(** ** The claims in the spec's own words *)

(** "The last [n] elements in time order" of a series. *)
Definition last_n {A} (n : nat) (l : list A) : list A :=
  skipn (List.length l - n) l.

(** Least and greatest element of a list. *)
Definition is_least {A} (le : A -> A -> Prop) (m : A) (l : list A) : Prop :=
  In m l /\ forall x, In x l -> le m x.
Definition is_greatest {A} (le : A -> A -> Prop) (m : A) (l : list A) : Prop :=
  In m l /\ forall x, In x l -> le x m.

(** All the values accumulated, across all the variables. *)
Definition all_values (p : VariablePlotter) : list Q :=
  List.concat (Dict.values (data p)).

(** * Properties *)

(** ** Dictionaries *)

Module DictFacts.
Import Dict.

Lemma get_set_same {V} (d : t V) k v : get (set d k v) k = Some v.
Proof.
  induction d as [|[k' v'] r IH]; simpl.
  - now rewrite String.eqb_refl.
  - destruct (String.eqb k k') eqn:E; simpl; rewrite E; auto.
Qed.

Lemma get_set_other {V} (d : t V) k k' v :
  k <> k' -> get (set d k v) k' = get d k'.
Proof.
  intros Hne. induction d as [|[k0 v0] r IH]; simpl.
  - destruct (String.eqb k' k) eqn:E; auto.
    apply String.eqb_eq in E. congruence.
  - destruct (String.eqb k k0) eqn:E; simpl.
    + apply String.eqb_eq in E. subst k0.
      destruct (String.eqb k' k) eqn:E'; auto.
      apply String.eqb_eq in E'. congruence.
    + now rewrite IH.
Qed.

Lemma get_some_in {V} (d : t V) k v : get d k = Some v -> In (k, v) d.
Proof.
  induction d as [|[k' v'] r IH]; simpl; [discriminate|].
  destruct (String.eqb k k') eqn:E; intros H.
  - apply String.eqb_eq in E. injection H as ->. subst. now left.
  - right. auto.
Qed.

Lemma get_none_iff {V} (d : t V) k : get d k = None <-> ~ In k (keys d).
Proof.
  induction d as [|[k' v'] r IH]; simpl.
  - tauto.
  - destruct (String.eqb k k') eqn:E.
    + apply String.eqb_eq in E. subst. split; [discriminate | tauto].
    + apply String.eqb_neq in E. rewrite IH. unfold keys.
      split; intros H; [intros [H1|H1]; [congruence | tauto] | tauto].
Qed.

Lemma get_in_keys {V} (d : t V) k : get d k <> None <-> In k (keys d).
Proof.
  rewrite get_none_iff. split; [| tauto].
  intros H. destruct (in_dec string_dec k (keys d)); tauto.
Qed.

Lemma keys_set_present {V} (d : t V) k v :
  get d k <> None -> keys (set d k v) = keys d.
Proof.
  induction d as [|[k' v'] r IH]; simpl; [congruence|].
  destruct (String.eqb k k') eqn:E; simpl; intros H; auto.
  f_equal. apply IH, H.
Qed.

Lemma keys_set {V} (d : t V) k v name :
  In name (keys (set d k v)) <-> name = k \/ In name (keys d).
Proof.
  induction d as [|[k' v'] r IH]; simpl.
  - intuition.
  - destruct (String.eqb k k') eqn:E; simpl.
    + apply String.eqb_eq in E. subst k'. intuition.
    + unfold keys in IH. rewrite IH. intuition.
Qed.

Lemma keys_set_nodup {V} (d : t V) k v :
  NoDup (keys d) -> NoDup (keys (set d k v)).
Proof.
  induction d as [|[k' v'] r IH]; simpl; intros H.
  - constructor; [intros [] | constructor].
  - inversion H as [|? ? Hni Hnd]; subst.
    destruct (String.eqb k k') eqn:E; simpl; [now constructor|].
    constructor; [| now apply IH].
    apply String.eqb_neq in E.
    change (~ In k' (keys (set r k v))). rewrite keys_set. intuition.
Qed.

Lemma get_app {V} (d1 d2 : t V) k :
  get (d1 ++ d2) k = match get d1 k with Some v => Some v | None => get d2 k end.
Proof.
  induction d1 as [|[k' v'] r IH]; simpl; auto.
  destruct (String.eqb k k'); auto.
Qed.

Lemma get_in_nodup {V} (d : t V) k v :
  NoDup (keys d) -> In (k, v) d -> get d k = Some v.
Proof.
  induction d as [|[k' v'] r IH]; simpl; [tauto|].
  intros Hnd [H|H].
  - injection H as -> ->. now rewrite String.eqb_refl.
  - inversion Hnd as [|? ? Hni Hnd']; subst.
    destruct (String.eqb k k') eqn:E.
    + apply String.eqb_eq in E. subst k'. exfalso. apply Hni.
      change (In (fst (k, v)) (map fst r)). now apply in_map.
    + auto.
Qed.

Lemma get_map_values {V W} (f : V -> W) (d : t V) k :
  get (map (fun kv => (fst kv, f (snd kv))) d) k = option_map f (get d k).
Proof.
  induction d as [|[k' v'] r IH]; simpl; auto.
  destruct (String.eqb k k'); auto.
Qed.

(** [dict(pairs)]: the last binding of a key wins. *)
Lemma get_fold_set {V} (l : list (string * V)) (d : t V) k :
  get (fold_left (fun d kv => set d (fst kv) (snd kv)) l d) k
  = match get (rev l) k with Some v => Some v | None => get d k end.
Proof.
  revert d. induction l as [|[k1 v1] r IH]; intros d; simpl; auto.
  rewrite IH, get_app. destruct (get (rev r) k); auto.
  simpl. destruct (String.eqb k k1) eqn:E.
  - apply String.eqb_eq in E. subst. apply get_set_same.
  - apply String.eqb_neq in E. apply get_set_other. congruence.
Qed.

Lemma get_of_pairs {V} (l : list (string * V)) k :
  get (of_pairs l) k = get (rev l) k.
Proof.
  unfold of_pairs. rewrite get_fold_set. now destruct (get (rev l) k).
Qed.

Lemma keys_fold_set {V} (l : list (string * V)) (d : t V) name :
  In name (keys (fold_left (fun d kv => set d (fst kv) (snd kv)) l d))
  <-> In name (keys d) \/ In name (map fst l).
Proof.
  revert d. induction l as [|[k1 v1] r IH]; intros d; simpl.
  - tauto.
  - rewrite IH, keys_set. intuition.
Qed.

Lemma nodup_fold_set {V} (l : list (string * V)) (d : t V) :
  NoDup (keys d) ->
  NoDup (keys (fold_left (fun d kv => set d (fst kv) (snd kv)) l d)).
Proof.
  revert d. induction l as [|[k1 v1] r IH]; intros d H; simpl; auto.
  apply IH. now apply keys_set_nodup.
Qed.

Lemma nodup_of_pairs {V} (l : list (string * V)) : NoDup (keys (of_pairs l)).
Proof. apply nodup_fold_set. constructor. Qed.

Lemma keys_of_pairs {V} (l : list (string * V)) name :
  In name (keys (of_pairs l)) <-> In name (map fst l).
Proof.
  unfold of_pairs. rewrite keys_fold_set. simpl. tauto.
Qed.

End DictFacts.

(** ** Running a method *)

Lemma bind_ok {A B} (m : M A) (f : A -> M B) p a p1 t1 :
  m p = (Ok a, p1, t1) ->
  bind m f p = (result_of (f a p1), state_of (f a p1), t1 ++ trace_of (f a p1)).
Proof.
  intros H. unfold bind. rewrite H. now destruct (f a p1) as [[r p2] t2].
Qed.

Lemma bind_raise {A B} (m : M A) (f : A -> M B) p e p1 t1 :
  m p = (Raise e, p1, t1) -> bind m f p = (Raise e, p1, t1).
Proof. intros H. unfold bind. now rewrite H. Qed.

Lemma run_eta {A} (x : result A * VariablePlotter * list event) :
  x = (result_of x, state_of x, trace_of x).
Proof. now destruct x as [[r p] t]. Qed.

Lemma set_data_same p : set_data p (data p) = p.
Proof. now destruct p. Qed.

(** A computation that leaves the object as it is. *)
Definition keeps_state {A} (m : M A) : Prop := forall p, state_of (m p) = p.

Lemma keeps_bind {A B} (m : M A) (f : A -> M B) :
  keeps_state m -> (forall a, keeps_state (f a)) -> keeps_state (bind m f).
Proof.
  intros Hm Hf p. unfold bind. specialize (Hm p).
  destruct (m p) as [[[a|e] p1] t1]; unfold state_of in *; simpl in *; subst p1.
  - specialize (Hf a p). destruct (f a p) as [[r p2] t2]. exact Hf.
  - reflexivity.
Qed.

Lemma keeps_for_each {A} (l : list A) (body : A -> M unit) :
  (forall x, keeps_state (body x)) -> keeps_state (for_each l body).
Proof.
  intros H. induction l as [|x r IH]; simpl.
  - now intros p.
  - apply keeps_bind; auto.
Qed.

Lemma keeps_ret {A} (a : A) : keeps_state (ret a).
Proof. now intros p. Qed.
Lemma keeps_raise {A} e : keeps_state (@raise A e).
Proof. now intros p. Qed.
Lemma keeps_call e : keeps_state (call e).
Proof. now intros p. Qed.
Lemma keeps_lift {A} (r : result A) : keeps_state (lift r).
Proof. now intros p. Qed.
Lemma keeps_self : keeps_state self.
Proof. now intros p. Qed.
Lemma keeps_getitem {V} (d : Dict.t V) k : keeps_state (getitem d k).
Proof. unfold getitem. destruct (Dict.get d k); now intros p. Qed.
Lemma keeps_when b m : keeps_state m -> keeps_state (when b m).
Proof. destruct b; simpl; auto. now intros p. Qed.

Create HintDb keeps.
#[export] Hint Resolve keeps_ret keeps_raise keeps_call keeps_lift keeps_self
  keeps_getitem keeps_when : keeps.

Ltac keeps :=
  repeat first
    [ solve [auto with keeps]
    | progress intros
    | apply keeps_bind
    | apply keeps_for_each
    | match goal with
      | |- keeps_state (if ?x then _ else _) => destruct x
      | |- keeps_state (match ?x with _ => _ end) => destruct x
      | |- keeps_state (let (_, _) := ?x in _) => destruct x
      end ].

Lemma keeps_limit_values bk p : keeps_state (limit_values bk p).
Proof. unfold limit_values. keeps. Qed.

Lemma keeps_limit_times p : keeps_state (limit_times p).
Proof. unfold limit_times. keeps. Qed.

#[export] Hint Resolve keeps_limit_values keeps_limit_times : keeps.

Lemma keeps_set_axes_limits bk : keeps_state (set_axes_limits bk).
Proof. unfold set_axes_limits. keeps. Qed.

Lemma keeps_first_axes p drawn : keeps_state (first_axes p drawn).
Proof. unfold first_axes. keeps. Qed.

#[export] Hint Resolve keeps_set_axes_limits keeps_first_axes : keeps.

Lemma keeps_plot_line p xs kv : keeps_state (plot_line p xs kv).
Proof. unfold plot_line. keeps. Qed.

#[export] Hint Resolve keeps_plot_line : keeps.

Lemma keeps_render bk : keeps_state (render bk).
Proof. unfold render. keeps. Qed.

Lemma keeps_save now : keeps_state (save now).
Proof. unfold save. keeps. Qed.

(** ** The loop of appends *)

(** What one iteration that succeeds does to the series. *)
Definition push (env : Env) (d : Dict.t (list Q)) (name : string) : Dict.t (list Q) :=
  match Dict.get d name, Dict.get env name with
  | Some series, Some v => Dict.set d name (series ++ [v])
  | _, _ => d
  end.

Definition pushes (env : Env) (names : list string) (d : Dict.t (list Q))
  : Dict.t (list Q) :=
  fold_left (push env) names d.

Section Appends.
Import DictFacts.
Variable env : Env.

Lemma push_keys d name k :
  In k (Dict.keys (push env d name)) <-> In k (Dict.keys d).
Proof.
  unfold push. destruct (Dict.get d name) as [s|] eqn:E; [|tauto].
  destruct (Dict.get env name); [|tauto].
  rewrite keys_set_present; [tauto | congruence].
Qed.

Lemma pushes_keys names d k :
  In k (Dict.keys (pushes env names d)) <-> In k (Dict.keys d).
Proof.
  revert d. induction names as [|n r IH]; intros d; simpl; [tauto|].
  unfold pushes in *. simpl. now rewrite IH, push_keys.
Qed.

Lemma push_keys_eq d name : Dict.keys (push env d name) = Dict.keys d.
Proof.
  unfold push. destruct (Dict.get d name) as [s|] eqn:E; auto.
  destruct (Dict.get env name); auto.
  apply keys_set_present. congruence.
Qed.

Lemma pushes_keys_eq names d : Dict.keys (pushes env names d) = Dict.keys d.
Proof.
  revert d. induction names as [|n r IH]; intros d; auto.
  unfold pushes in *. simpl. now rewrite IH, push_keys_eq.
Qed.

Lemma pushes_present names d k :
  Dict.get d k <> None -> Dict.get (pushes env names d) k <> None.
Proof. rewrite !get_in_keys. apply pushes_keys. Qed.

(** A series only grows at its end. *)
Lemma push_extends d name k s :
  Dict.get d k = Some s ->
  exists t, Dict.get (push env d name) k = Some (s ++ t).
Proof.
  intros H. unfold push.
  destruct (Dict.get d name) as [s'|] eqn:E;
    [| exists []; now rewrite app_nil_r].
  destruct (Dict.get env name) as [v|];
    [| exists []; now rewrite app_nil_r].
  destruct (string_dec name k) as [->|Hne].
  - rewrite get_set_same. exists [v]. congruence.
  - rewrite get_set_other by assumption. exists []. now rewrite app_nil_r.
Qed.

Lemma pushes_extends names d k s :
  Dict.get d k = Some s ->
  exists t, Dict.get (pushes env names d) k = Some (s ++ t).
Proof.
  revert d s. induction names as [|n r IH]; intros d s H.
  - exists []. now rewrite app_nil_r.
  - destruct (push_extends d n k s H) as [t1 H1].
    destruct (IH _ _ H1) as [t2 H2].
    exists (t1 ++ t2). unfold pushes in *. simpl. now rewrite H2, app_assoc.
Qed.

Lemma pushes_notin names d k :
  ~ In k names -> Dict.get (pushes env names d) k = Dict.get d k.
Proof.
  revert d. induction names as [|n r IH]; intros d Hni; auto.
  unfold pushes in *. simpl. rewrite IH by (simpl in Hni; tauto).
  unfold push. destruct (Dict.get d n); auto. destruct (Dict.get env n); auto.
  apply get_set_other. simpl in Hni. tauto.
Qed.

(** With distinct names every tracked series gets exactly one value. *)
Lemma pushes_in names d k s v :
  NoDup names -> In k names ->
  Dict.get d k = Some s -> Dict.get env k = Some v ->
  Dict.get (pushes env names d) k = Some (s ++ [v]).
Proof.
  revert d. induction names as [|n r IH]; intros d Hnd Hin Hs Hv; [easy|].
  inversion Hnd as [|? ? Hni Hnd']; subst.
  unfold pushes in *. simpl. destruct Hin as [->|Hin].
  - change (Dict.get (pushes env r (push env d k)) k = Some (s ++ [v])).
    rewrite pushes_notin by assumption.
    unfold push. rewrite Hs, Hv. apply get_set_same.
  - apply IH; auto.
    unfold push. destruct (Dict.get d n) eqn:En; auto.
    destruct (Dict.get env n); auto.
    rewrite get_set_other; auto. intros ->. contradiction.
Qed.

(** Whatever the names, a tracked series that is read gets a value. *)
Lemma pushes_nonempty names d k :
  In k names -> Dict.get d k <> None -> Dict.get env k <> None ->
  exists s, Dict.get (pushes env names d) k = Some s /\ s <> [].
Proof.
  revert d. induction names as [|n r IH]; intros d Hin Hd He; [easy|].
  destruct (string_dec n k) as [->|Hne].
  - destruct (Dict.get d k) as [s|] eqn:Es; [|congruence].
    destruct (Dict.get env k) as [v|] eqn:Ev; [|congruence].
    assert (H1 : Dict.get (push env d k) k = Some (s ++ [v])).
    { unfold push. rewrite Es, Ev. apply get_set_same. }
    destruct (pushes_extends r _ _ _ H1) as [t Ht].
    exists ((s ++ [v]) ++ t). split; [exact Ht|].
    destruct s; discriminate.
  - destruct Hin as [?|Hin]; [congruence|].
    unfold pushes in *. simpl. apply IH; auto.
    apply get_in_keys, push_keys, get_in_keys, Hd.
Qed.

Lemma append_value_ok p name s v :
  Dict.get (data p) name = Some s -> Dict.get env name = Some v ->
  append_value env name p = (Ok tt, set_data p (push env (data p) name), []).
Proof.
  intros Hs Hv. unfold append_value, bind, self, getitem, getattr, push.
  now rewrite Hs, Hv.
Qed.

Lemma append_value_missing p name s :
  Dict.get (data p) name = Some s -> Dict.get env name = None ->
  append_value env name p = (Raise (AttributeError name), p, []).
Proof.
  intros Hs Hv. unfold append_value, bind, self, getitem, getattr.
  now rewrite Hs, Hv.
Qed.

(** The loop when every read succeeds. *)
Lemma loop_ok names p :
  (forall n, In n names -> Dict.get (data p) n <> None) ->
  readable names env ->
  for_each names (append_value env) p
  = (Ok tt, set_data p (pushes env names (data p)), []).
Proof.
  revert p. induction names as [|n r IH]; intros p Hd He.
  - simpl. unfold ret. now rewrite set_data_same.
  - destruct (Dict.get (data p) n) as [s|] eqn:Es;
      [| exfalso; apply (Hd n); simpl; auto].
    destruct (Dict.get env n) as [v|] eqn:Ev;
      [| exfalso; apply (He n); simpl; auto].
    simpl. rewrite (bind_ok _ _ _ _ _ _ (append_value_ok p n s v Es Ev)).
    rewrite IH.
    + reflexivity.
    + intros k Hk. simpl. apply get_in_keys, push_keys, get_in_keys, Hd.
      simpl; auto.
    + intros k Hk. apply He. simpl; auto.
Qed.

(** The loop when the read of [k] is the first to fail. *)
Lemma loop_fail pre k post p :
  (forall n, In n (pre ++ [k]) -> Dict.get (data p) n <> None) ->
  readable pre env -> Dict.get env k = None ->
  for_each (pre ++ k :: post) (append_value env) p
  = (Raise (AttributeError k), set_data p (pushes env pre (data p)), []).
Proof.
  revert p. induction pre as [|n r IH]; intros p Hd He Hk.
  - simpl. destruct (Dict.get (data p) k) as [s|] eqn:Es;
      [| exfalso; apply (Hd k); simpl; auto].
    rewrite (bind_raise _ _ _ _ _ _ (append_value_missing p k s Es Hk)).
    now rewrite set_data_same.
  - destruct (Dict.get (data p) n) as [s|] eqn:Es;
      [| exfalso; apply (Hd n); simpl; auto].
    destruct (Dict.get env n) as [v|] eqn:Ev;
      [| exfalso; apply (He n); simpl; auto].
    simpl. rewrite (bind_ok _ _ _ _ _ _ (append_value_ok p n s v Es Ev)).
    rewrite IH; auto.
    + intros m Hm. simpl. apply get_in_keys, push_keys, get_in_keys, Hd.
      simpl; auto.
    + intros m Hm. apply He. simpl; auto.
Qed.
End Appends.

(** ** The projections of a bind *)

Lemma result_bind {A B} (m : M A) (f : A -> M B) p :
  result_of (bind m f p)
  = match result_of (m p) with
    | Ok a => result_of (f a (state_of (m p)))
    | Raise e => Raise e
    end.
Proof.
  unfold bind, result_of, state_of, trace_of.
  destruct (m p) as [[[a|e] p1] t1]; simpl; auto.
  now destruct (f a p1) as [[r p2] t2].
Qed.

Lemma state_bind {A B} (m : M A) (f : A -> M B) p :
  state_of (bind m f p)
  = match result_of (m p) with
    | Ok a => state_of (f a (state_of (m p)))
    | Raise e => state_of (m p)
    end.
Proof.
  unfold bind, result_of, state_of, trace_of.
  destruct (m p) as [[[a|e] p1] t1]; simpl; auto.
  now destruct (f a p1) as [[r p2] t2].
Qed.

Lemma trace_bind {A B} (m : M A) (f : A -> M B) p :
  trace_of (bind m f p)
  = trace_of (m p) ++ match result_of (m p) with
                      | Ok a => trace_of (f a (state_of (m p)))
                      | Raise e => []
                      end.
Proof.
  unfold bind, result_of, state_of, trace_of.
  destruct (m p) as [[[a|e] p1] t1]; simpl.
  - now destruct (f a p1) as [[r p2] t2].
  - now rewrite app_nil_r.
Qed.

(** ** Minimum and maximum *)

Section MinMaxFacts.
Context {A : Type} (ltb : A -> A -> bool).

Lemma min_from_in best l : In (min_from ltb best l) (best :: l).
Proof.
  revert best. induction l as [|x r IH]; intros best; simpl; auto.
  specialize (IH (if ltb x best then x else best)). simpl in IH.
  destruct (ltb x best); intuition.
Qed.

Lemma max_from_in best l : In (max_from ltb best l) (best :: l).
Proof.
  revert best. induction l as [|x r IH]; intros best; simpl; auto.
  specialize (IH (if ltb best x then x else best)). simpl in IH.
  destruct (ltb best x); intuition.
Qed.

Lemma py_min_some l : l <> [] -> exists m, py_min ltb l = Ok m /\ In m l.
Proof.
  destruct l as [|x r]; [congruence|]. intros _.
  exists (min_from ltb x r). split; [reflexivity | apply min_from_in].
Qed.

Lemma py_max_some l : l <> [] -> exists m, py_max ltb l = Ok m /\ In m l.
Proof.
  destruct l as [|x r]; [congruence|]. intros _.
  exists (max_from ltb x r). split; [reflexivity | apply max_from_in].
Qed.
End MinMaxFacts.

Lemma min_from_Z_le best l x :
  In x (best :: l) -> min_from Z.ltb best l <= x.
Proof.
  revert best x. induction l as [|y r IH]; intros best x H; simpl in *.
  - destruct H as [->|[]]. lia.
  - destruct (Z.ltb_spec y best) as [Hlt|Hge].
    + destruct H as [->|[->|H]].
      * specialize (IH y y (or_introl eq_refl)). lia.
      * apply IH. now left.
      * apply IH. now right.
    + destruct H as [->|[->|H]].
      * apply IH. now left.
      * specialize (IH best best (or_introl eq_refl)). lia.
      * apply IH. now right.
Qed.

Lemma max_from_Z_ge best l x :
  In x (best :: l) -> x <= max_from Z.ltb best l.
Proof.
  revert best x. induction l as [|y r IH]; intros best x H; simpl in *.
  - destruct H as [->|[]]. lia.
  - destruct (Z.ltb_spec best y) as [Hlt|Hge].
    + destruct H as [->|[->|H]].
      * specialize (IH y y (or_introl eq_refl)). lia.
      * apply IH. now left.
      * apply IH. now right.
    + destruct H as [->|[->|H]].
      * apply IH. now left.
      * specialize (IH best best (or_introl eq_refl)). lia.
      * apply IH. now right.
Qed.

Lemma py_min_Z_least l :
  l <> [] -> exists m, py_min Z.ltb l = Ok m /\ is_least Z.le m l.
Proof.
  destruct l as [|x r]; [congruence|]. intros _.
  exists (min_from Z.ltb x r). split; [reflexivity|]. split.
  - apply min_from_in.
  - intros y Hy. now apply min_from_Z_le.
Qed.

Lemma py_max_Z_greatest l :
  l <> [] -> exists m, py_max Z.ltb l = Ok m /\ is_greatest Z.le m l.
Proof.
  destruct l as [|x r]; [congruence|]. intros _.
  exists (max_from Z.ltb x r). split; [reflexivity|]. split.
  - apply max_from_in.
  - intros y Hy. now apply max_from_Z_ge.
Qed.

(** [min(a, b)] and [max(a, b)] on numbers are the library's. *)
Lemma Qpair_min_Qmin a b : Qpair_min a b = Qmin a b.
Proof.
  unfold Qpair_min, py_min2, Qltb, Qmin, GenericMinMax.gmin. simpl.
  destruct (Qle_bool a b) eqn:E; simpl.
  - apply Qle_bool_iff in E. rewrite Qle_alt in E.
    destruct (a ?= b)%Q; congruence.
  - destruct (a ?= b)%Q eqn:C; auto;
      assert (H : (a <= b)%Q) by (rewrite Qle_alt, C; discriminate);
      apply Qle_bool_iff in H; congruence.
Qed.

Lemma Qpair_max_Qmax a b : Qpair_max a b = Qmax a b.
Proof.
  unfold Qpair_max, py_max2, max_from, Qltb, Qmax, GenericMinMax.gmax.
  destruct (Qle_bool b a) eqn:E; cbn [negb].
  - apply Qle_bool_iff in E.
    destruct (a ?= b)%Q eqn:C; auto.
    apply Qlt_alt in C. exfalso. now apply (Qlt_not_le a b).
  - assert (H : (a < b)%Q).
    { apply Qnot_le_lt. intros H. apply Qle_bool_iff in H. congruence. }
    destruct (a ?= b)%Q eqn:C; auto; exfalso.
    + apply Qeq_alt in C. rewrite C in H. now apply (Qlt_irrefl b).
    + apply Qgt_alt in C. apply (Qlt_not_le a b H). now apply Qlt_le_weak.
Qed.

(** ** Anatomy of a redraw *)

(** The object after a sample whose reads all succeed. *)
Definition sampled (now : Z) (env : Env) (p : VariablePlotter) : VariablePlotter :=
  set_data (set_time p (time p ++ [now])) (pushes env (var_names p) (data p)).

Lemma record_sample_loop now env p :
  record_sample now env p
  = for_each (var_names p) (append_value env) (set_time p (time p ++ [now])).
Proof.
  unfold record_sample, bind, self, put. simpl.
  destruct (for_each _ _ _) as [[[[]|e] p2] t2]; reflexivity.
Qed.

Lemma record_sample_ok now env p :
  (forall n, In n (var_names p) -> Dict.get (data p) n <> None) ->
  readable (var_names p) env ->
  record_sample now env p = (Ok tt, sampled now env p, []).
Proof.
  intros Hd He. rewrite record_sample_loop.
  now rewrite (loop_ok env (var_names p) (set_time p (time p ++ [now])) Hd He).
Qed.

Lemma record_sample_fail now env p pre k post :
  (forall n, In n (var_names p) -> Dict.get (data p) n <> None) ->
  var_names p = pre ++ k :: post ->
  readable pre env -> Dict.get env k = None ->
  record_sample now env p
  = (Raise (AttributeError k),
     set_data (set_time p (time p ++ [now])) (pushes env pre (data p)), []).
Proof.
  intros Hd Hn He Hk. rewrite record_sample_loop, Hn.
  rewrite (loop_fail env pre k post (set_time p (time p ++ [now]))); auto.
  intros n Hin. apply Hd. rewrite Hn.
  apply in_app_iff in Hin. apply in_app_iff. simpl in *. tauto.
Qed.

(** Either every tracked name can be read, or there is a first that cannot. *)
Lemma readable_or_first_missing names (env : Env) :
  readable names env
  \/ exists pre k post, names = pre ++ k :: post
                        /\ readable pre env /\ Dict.get env k = None.
Proof.
  induction names as [|n r IH].
  - left. intros ? [].
  - destruct (Dict.get env n) as [v|] eqn:E.
    + destruct IH as [IH|(pre & k & post & -> & Hp & Hk)].
      * left. intros m [<-|Hm]; [congruence | now apply IH].
      * right. exists (n :: pre), k, post. repeat split; auto.
        intros m [<-|Hm]; [congruence | now apply Hp].
    + right. exists [], n, r. repeat split; auto. intros ? [].
Qed.

(** The style of a name, as [self.fmt[name]] finds it. *)
Definition style (p : VariablePlotter) (name : string) : string :=
  match Dict.get (fmt p) name with
  | Some f => f
  | None => ""
  end.

Definition lines (p : VariablePlotter) (xs : list Z) (d : Dict.t (list Q))
  : list event :=
  map (fun kv => Plot xs (snd kv) (style p (fst kv)) (fst kv)) d.

Lemma plot_line_ok p xs k s f p0 :
  Dict.get (fmt p) k = Some f -> List.length xs = List.length s ->
  plot_line p xs (k, s) p0 = (Ok tt, p0, [Plot xs s f k]).
Proof.
  intros Hf Hl. unfold plot_line, bind, getitem, call. simpl.
  rewrite Hf. simpl. rewrite Hl, Nat.eqb_refl. reflexivity.
Qed.

Lemma plot_line_uneven p xs k s f p0 :
  Dict.get (fmt p) k = Some f -> List.length xs <> List.length s ->
  plot_line p xs (k, s) p0 = (Raise shape_error, p0, []).
Proof.
  intros Hf Hl. unfold plot_line, bind, getitem, raise. simpl.
  rewrite Hf. simpl. apply Nat.eqb_neq in Hl. now rewrite Hl.
Qed.

(** The loop of [plt.plot] when every series is as long as the times. *)
Lemma draw_lines_run p xs (d : Dict.t (list Q)) p0 :
  (forall name, In name (Dict.keys d) -> Dict.get (fmt p) name <> None) ->
  (forall kv, In kv d -> List.length xs = List.length (snd kv)) ->
  for_each d (plot_line p xs) p0 = (Ok tt, p0, lines p xs d).
Proof.
  induction d as [|[k s] r IH]; intros H Hl; [reflexivity|].
  destruct (Dict.get (fmt p) k) as [f|] eqn:E;
    [| exfalso; apply (H k); simpl; auto].
  simpl for_each.
  rewrite (bind_ok _ _ _ _ _ _
             (plot_line_ok p xs k s f p0 E (Hl (k, s) (or_introl eq_refl)))).
  rewrite IH; [| intros name Hn; apply H; simpl; auto
               | intros kv Hkv; apply Hl; simpl; auto].
  unfold lines, style. simpl. now rewrite E.
Qed.

(** The same loop in general: it draws every line, or stops at the first
    series that is not as long as the times. *)
Lemma draw_lines_cases p xs (d : Dict.t (list Q)) p0 :
  (forall name, In name (Dict.keys d) -> Dict.get (fmt p) name <> None) ->
  for_each d (plot_line p xs) p0 = (Ok tt, p0, lines p xs d)
  \/ exists k,
       for_each d (plot_line p xs) p0
       = (Raise shape_error, p0, lines p xs (firstn k d)).
Proof.
  induction d as [|[k s] r IH]; intros H; [now left|].
  destruct (Dict.get (fmt p) k) as [f|] eqn:E;
    [| exfalso; apply (H k); simpl; auto].
  simpl for_each.
  destruct (Nat.eq_dec (List.length xs) (List.length s)) as [Hl|Hl].
  - rewrite (bind_ok _ _ _ _ _ _ (plot_line_ok p xs k s f p0 E Hl)).
    destruct IH as [IH|[n IH]]; [intros name Hn; apply H; simpl; auto | |];
      rewrite IH.
    + left. unfold lines, style. simpl. now rewrite E.
    + right. exists (S n). unfold lines, style. simpl. now rewrite E.
  - right. exists 0%nat.
    now rewrite (bind_raise _ _ _ _ _ _ (plot_line_uneven p xs k s f p0 E Hl)).
Qed.

Lemma limit_values_run bk p :
  Dict.values (data p) <> [] ->
  Forall (fun s => s <> []) (Dict.values (data p)) ->
  exists yl, limit_values bk p p = (Ok tt, p, yl)
             /\ (yl = [] \/ exists lo hi, yl = [SetYlim lo hi]).
Proof.
  intros Hv Hall. unfold limit_values.
  destruct (ylim p) as [[y0 y1]|]; [| exists []; auto].
  destruct (py_min_some list_ltb _ Hv) as (lowest & E1 & I1).
  destruct (py_max_some list_ltb _ Hv) as (highest & E2 & I2).
  rewrite Forall_forall in Hall.
  destruct (py_min_some Qltb lowest (Hall _ I1)) as (lo & E3 & _).
  destruct (py_max_some Qltb highest (Hall _ I2)) as (hi & E4 & _).
  eexists. split.
  - unfold bind, lift, call. rewrite E1, E3, E2, E4. simpl. reflexivity.
  - right. eauto.
Qed.

Lemma limit_times_run p :
  time p <> [] ->
  exists tmin tmax,
    is_least Z.le tmin (time p) /\ is_greatest Z.le tmax (time p)
    /\ limit_times p p
       = (Ok tt, p,
          match xlim p with
          | Some (x0, x1) =>
              [SetXlim (Qmin x0 (inject_Z tmin)) (Qmax x1 (inject_Z tmax))]
          | None => []
          end).
Proof.
  intros Ht.
  destruct (py_min_Z_least _ Ht) as (tmin & E1 & L1).
  destruct (py_max_Z_greatest _ Ht) as (tmax & E2 & L2).
  exists tmin, tmax. repeat split; try apply L1; try apply L2.
  unfold limit_times. destruct (xlim p) as [[x0 x1]|]; [|reflexivity].
  unfold bind, lift, call. rewrite E1, E2. simpl.
  now rewrite Qpair_min_Qmin, Qpair_max_Qmax.
Qed.

(** The calls a redraw makes for the legend. *)
Definition legend_calls (p : VariablePlotter) : list event :=
  match legend p with
  | Some loc => if str_truthy loc then [Legend loc] else []
  | None => []
  end.

Lemma length_slice_from {A B} (start : Z) (l : list A) (l' : list B) :
  List.length l = List.length l' ->
  List.length (slice_from start l) = List.length (slice_from start l').
Proof.
  intros H. unfold slice_from. rewrite !length_skipn, H. reflexivity.
Qed.

(** Windows of level series are level. *)
Lemma level_window p :
  level p ->
  forall kv, In kv (snd (select_window p)) ->
    List.length (fst (select_window p)) = List.length (snd kv).
Proof.
  intros Hl kv. unfold select_window.
  destruct (negb (scrolling p =? 0)); cbn [fst snd].
  - unfold Dict.items. intros Hin. apply in_map_iff in Hin.
    destruct Hin as (kv0 & <- & Hkv0). simpl.
    apply length_slice_from. symmetry. now apply Hl.
  - intros Hin. symmetry. now apply Hl.
Qed.

Lemma balanced_level p : wf p -> balanced p -> level p.
Proof.
  intros Hwf Hb [k s] Hin. simpl.
  assert (Hk : In k (Dict.keys (data p))).
  { change k with (fst (k, s)). now apply in_map. }
  destruct (Hb k (wf_keys p Hwf k Hk)) as (s' & Hget & Hlen).
  rewrite (DictFacts.get_in_nodup _ k s (wf_nodup p Hwf) Hin) in Hget.
  congruence.
Qed.

(** The window of an object whose series all have a style. *)
Lemma window_styled p :
  (forall name, In name (Dict.keys (data p)) -> Dict.get (fmt p) name <> None) ->
  forall name, In name (Dict.keys (snd (select_window p))) ->
    Dict.get (fmt p) name <> None.
Proof.
  intros Hfmt name. unfold select_window.
  destruct (negb (scrolling p =? 0)); simpl; auto.
  unfold Dict.keys, Dict.items. rewrite map_map. simpl. apply Hfmt.
Qed.

(** A redraw that stops in the loop of [plt.plot]. *)
Lemma render_raise bk p e L :
  for_each (snd (select_window p)) (plot_line p (fst (select_window p))) p
  = (Raise e, p, L) ->
  render bk p = (Raise e, p, L).
Proof.
  intros E. unfold render. rewrite (bind_ok _ _ p p p [] eq_refl).
  revert E. destruct (select_window p) as [wt wd]. cbn [fst snd]. intros E.
  unfold Dict.items. now rewrite (bind_raise _ _ _ _ _ _ E).
Qed.

(** What a redraw does after its lines, on an object that has a figure, at
    least one series, and no empty series. *)
Lemma render_after_lines bk p L :
  fig p <> None ->
  data p <> [] ->
  Forall (fun s => s <> []) (Dict.values (data p)) ->
  time p <> [] ->
  for_each (snd (select_window p)) (plot_line p (fst (select_window p))) p
  = (Ok tt, p, L) ->
  exists yl tmin tmax,
    (yl = [] \/ exists lo hi, yl = [SetYlim lo hi])
    /\ is_least Z.le tmin (time p) /\ is_greatest Z.le tmax (time p)
    /\ render bk p
       = (Ok tt, p,
          L
          ++ legend_calls p
          ++ [SetXlabel (xlabel p); SetYlabel (ylabel p)]
          ++ yl
          ++ match xlim p with
             | Some (x0, x1) =>
                 [SetXlim (Qmin x0 (inject_Z tmin)) (Qmax x1 (inject_Z tmax))]
             | None => []
             end
          ++ [SetIntegerLocator])
    /\ limit_values bk p p = (Ok tt, p, yl).
Proof.
  intros Hfig Hd Hall Ht E.
  assert (Hv : Dict.values (data p) <> []).
  { destruct (data p); [congruence | discriminate]. }
  destruct (limit_values_run bk p Hv Hall) as (yl & Ey & Hyl).
  destruct (limit_times_run p Ht) as (tmin & tmax & L1 & L2 & Ex).
  exists yl, tmin, tmax.
  split; [exact Hyl|]. split; [exact L1|]. split; [exact L2|].
  split; [|exact Ey].
  unfold render. rewrite (bind_ok _ _ p p p [] eq_refl).
  assert (Hw : snd (select_window p) <> []).
  { unfold select_window. destruct (negb (scrolling p =? 0)); simpl; auto.
    unfold Dict.items. destruct (data p); [congruence | discriminate]. }
  revert E Hw. destruct (select_window p) as [wt wd]. cbn [fst snd].
  intros E Hw. unfold Dict.items.
  rewrite (bind_ok _ _ _ _ _ _ E).
  assert (El : (match legend p with
                | Some loc => when (str_truthy loc) (call (Legend loc))
                | None => ret tt
                end) p = (Ok tt, p, legend_calls p)).
  { unfold legend_calls. destruct (legend p) as [loc|]; auto.
    destruct (str_truthy loc); auto. }
  rewrite (bind_ok _ _ _ _ _ _ El).
  assert (Ea : first_axes p wd p = (Ok tt, p, [])).
  { unfold first_axes. destruct (fig p); [|congruence].
    destruct wd; [congruence|]. now destruct (opt_str_truthy (legend p)). }
  rewrite (bind_ok _ _ _ _ _ _ Ea).
  rewrite (bind_ok _ _ p tt p [SetXlabel (xlabel p)] eq_refl).
  rewrite (bind_ok _ _ p tt p [SetYlabel (ylabel p)] eq_refl).
  unfold set_axes_limits. rewrite (bind_ok _ _ p p p [] eq_refl).
  rewrite (bind_ok _ _ _ _ _ _ Ey).
  rewrite (bind_ok _ _ _ _ _ _ Ex).
  unfold result_of, state_of, trace_of, call. simpl.
  repeat (f_equal; try (rewrite <- ?app_assoc; simpl; reflexivity)).
Qed.

(** What a redraw does on an object that has a figure, a style for every
    series, at least one series, no empty series, and level series. *)
Lemma render_run bk p :
  fig p <> None ->
  (forall name, In name (Dict.keys (data p)) -> Dict.get (fmt p) name <> None) ->
  data p <> [] ->
  Forall (fun s => s <> []) (Dict.values (data p)) ->
  time p <> [] ->
  level p ->
  exists yl tmin tmax,
    (yl = [] \/ exists lo hi, yl = [SetYlim lo hi])
    /\ is_least Z.le tmin (time p) /\ is_greatest Z.le tmax (time p)
    /\ render bk p
       = (Ok tt, p,
          lines p (fst (select_window p)) (snd (select_window p))
          ++ legend_calls p
          ++ [SetXlabel (xlabel p); SetYlabel (ylabel p)]
          ++ yl
          ++ match xlim p with
             | Some (x0, x1) =>
                 [SetXlim (Qmin x0 (inject_Z tmin)) (Qmax x1 (inject_Z tmax))]
             | None => []
             end
          ++ [SetIntegerLocator])
    /\ limit_values bk p p = (Ok tt, p, yl).
Proof.
  intros Hfig Hfmt Hd Hall Ht Hlevel.
  apply render_after_lines; auto.
  apply draw_lines_run; [now apply window_styled | now apply level_window].
Qed.

(** The same without level series: the redraw may stop at the first series
    that is not as long as the times. *)
Lemma render_cases bk p :
  fig p <> None ->
  (forall name, In name (Dict.keys (data p)) -> Dict.get (fmt p) name <> None) ->
  data p <> [] ->
  Forall (fun s => s <> []) (Dict.values (data p)) ->
  time p <> [] ->
  (exists yl tmin tmax,
     (yl = [] \/ exists lo hi, yl = [SetYlim lo hi])
     /\ is_least Z.le tmin (time p) /\ is_greatest Z.le tmax (time p)
     /\ render bk p
        = (Ok tt, p,
           lines p (fst (select_window p)) (snd (select_window p))
           ++ legend_calls p
           ++ [SetXlabel (xlabel p); SetYlabel (ylabel p)]
           ++ yl
           ++ match xlim p with
              | Some (x0, x1) =>
                  [SetXlim (Qmin x0 (inject_Z tmin)) (Qmax x1 (inject_Z tmax))]
              | None => []
              end
           ++ [SetIntegerLocator])
     /\ limit_values bk p p = (Ok tt, p, yl))
  \/ (exists k,
        render bk p
        = (Raise shape_error, p,
           lines p (fst (select_window p)) (firstn k (snd (select_window p))))).
Proof.
  intros Hfig Hfmt Hd Hall Ht.
  destruct (draw_lines_cases p (fst (select_window p)) (snd (select_window p)) p
              (window_styled p Hfmt)) as [E|[k E]].
  - left. now apply render_after_lines.
  - right. exists k. now apply render_raise.
Qed.

Lemma plot_run now env bk p :
  plot now env bk p
  = match record_sample now env p with
    | (Ok _, p1, t1) =>
        (result_of (render bk p1), state_of (render bk p1),
         t1 ++ trace_of (render bk p1))
    | (Raise e, p1, t1) => (Raise e, p1, t1)
    end.
Proof.
  unfold plot, bind. destruct (record_sample now env p) as [[[[]|e] p1] t1]; auto.
  now destruct (render bk p1) as [[r p2] t2].
Qed.

Lemma update_run now env bk p n :
  fig p = Some n ->
  update now env bk p
  = match plot now env bk p with
    | (Raise e, p1, t1) => (Raise e, p1, [Figure n; Clf] ++ t1)
    | (Ok _, p1, t1) =>
        match get_fignums bk with
        | [] => (Raise SystemExit, p1,
                 [Figure n; Clf] ++ t1 ++ [Draw; Pause (pause p)])
        | _ =>
            if opt_str_truthy (output_dir p)
            then (result_of (save now p1), state_of (save now p1),
                  [Figure n; Clf] ++ t1 ++ [Draw; Pause (pause p)]
                  ++ trace_of (save now p1))
            else (Ok tt, p1, [Figure n; Clf] ++ t1 ++ [Draw; Pause (pause p)])
        end
    end.
Proof.
  intros Hfig. unfold update, bind, self, call, raise, ret, when. rewrite Hfig.
  destruct (plot now env bk p) as [[[[]|e] p1] t1]; simpl; auto.
  destruct (get_fignums bk); simpl.
  - now rewrite ?app_nil_r.
  - destruct (opt_str_truthy (output_dir p)); simpl.
    + now destruct (save now p1) as [[r p2] t2].
    + now rewrite ?app_nil_r.
Qed.

Lemma update_unstarted now env bk p :
  fig p = None ->
  update now env bk p = (Raise (AttributeError "number"), p, []).
Proof.
  intros Hfig. unfold update, bind, self, raise. now rewrite Hfig.
Qed.

Lemma start_run now env bk p :
  start now env bk p
  = let p1 := set_fig p (Some (new_figure bk)) in
    (result_of (update now env bk p1), state_of (update now env bk p1),
     [Ion; NewFigure (new_figure bk); SetWindowTitle (title p)]
     ++ trace_of (update now env bk p1)).
Proof.
  unfold start, prepare, bind, self, put, call. simpl.
  now destruct (update now env bk _) as [[r p2] t2].
Qed.

Lemma save_run now p dir n :
  output_dir p = Some dir -> fig p = Some n ->
  save now p = (Ok tt, p, [Savefig (path_join dir (format_05d now ++ ".png")%string)]).
Proof.
  intros Hd Hf. unfold save, bind, self, call. simpl. now rewrite Hd, Hf.
Qed.

(** ** Construction *)

Section Construction.
Import DictFacts.

Lemma get_const {V} (d : Dict.t V) k c :
  (forall kv, In kv d -> snd kv = c) -> In k (Dict.keys d) ->
  Dict.get d k = Some c.
Proof.
  induction d as [|[k' v'] r IH]; simpl; [tauto|]. intros Hc Hin.
  destruct (String.eqb k k') eqn:E.
  - f_equal. apply (Hc (k', v')). now left.
  - apply IH; [auto|]. apply String.eqb_neq in E.
    destruct Hin as [?|?]; [congruence | assumption].
Qed.

Lemma list_mul_single {A} (x : A) n : list_mul [x] n = repeat x n.
Proof. unfold list_mul. induction n; simpl; congruence. Qed.

Lemma keys_combine {V} (names : list string) (vs : list V) :
  List.length names = List.length vs -> map fst (combine names vs) = names.
Proof.
  revert vs. induction names as [|n r IH]; intros [|v vs] H; simpl in *;
    try discriminate; auto.
  f_equal. apply IH. congruence.
Qed.

Lemma nth_error_combine {V} (names : list string) (vs : list V) i n v :
  nth_error names i = Some n -> nth_error vs i = Some v ->
  In (n, v) (combine names vs).
Proof.
  revert names vs. induction i as [|i IH]; intros [|n' r] [|v' vs] Hn Hv;
    simpl in *; try discriminate.
  - injection Hn as ->. injection Hv as ->. now left.
  - right. eauto.
Qed.

(** The tokens really zipped with the names. *)
Definition tokens_for (names : list string) (f : str_or_list) : list string :=
  if negb (Nat.eqb (List.length (as_list f)) (List.length names))
  then list_mul (as_list f) (List.length names)
  else as_list f.

Lemma prepare_format_ok names f :
  List.length (as_list f) = 1%nat
  \/ List.length (as_list f) = List.length names ->
  _prepare_format_option names f
  = Ok (Dict.of_pairs (combine names (tokens_for names f)))
  /\ List.length (tokens_for names f) = List.length names.
Proof.
  intros H. unfold _prepare_format_option, tokens_for.
  assert (E : (Nat.eqb (List.length (as_list f)) 1
               || Nat.eqb (List.length (as_list f)) (List.length names))%bool
              = true).
  { apply orb_true_iff. rewrite !Nat.eqb_eq. exact H. }
  rewrite E. split; [reflexivity|].
  destruct (Nat.eqb_spec (List.length (as_list f)) (List.length names)) as [El|Hne];
    simpl; auto.
  destruct H as [H1|H1]; [|congruence].
  destruct (as_list f) as [|x [|y l]]; try discriminate.
  now rewrite list_mul_single, repeat_length.
Qed.

Lemma prepare_format_fail names f :
  List.length (as_list f) <> 1%nat ->
  List.length (as_list f) <> List.length names ->
  _prepare_format_option names f = Raise AssertionError.
Proof.
  intros H1 H2. unfold _prepare_format_option.
  apply Nat.eqb_neq in H1, H2. now rewrite H1, H2.
Qed.

Lemma prepare_format_inv names f d :
  _prepare_format_option names f = Ok d ->
  d = Dict.of_pairs (combine names (tokens_for names f))
  /\ List.length (tokens_for names f) = List.length names.
Proof.
  intros H.
  destruct (Nat.eq_dec (List.length (as_list f)) 1) as [E1|N1].
  - destruct (prepare_format_ok names f (or_introl E1)) as [E L].
    split; congruence.
  - destruct (Nat.eq_dec (List.length (as_list f)) (List.length names))
      as [E2|N2].
    + destruct (prepare_format_ok names f (or_intror E2)) as [E L].
      split; congruence.
    + rewrite prepare_format_fail in H by assumption. discriminate.
Qed.

Lemma default_title_ok names :
  names <> [] -> _prepare_default_title names = Ok (str_join " & " names).
Proof. destruct names; [congruence | reflexivity]. Qed.

Lemma or_default_ok x names :
  names <> [] -> exists s, or_default x (_prepare_default_title names) = Ok s.
Proof.
  intros H. unfold or_default. rewrite default_title_ok by assumption.
  destruct x as [s|]; [destruct (str_truthy s)|]; eauto.
Qed.

(** What a constructed object holds. *)
Lemma init_inv a p :
  __init__ a = Ok p ->
  var_names p = as_list (a_var a)
  /\ _prepare_format_option (as_list (a_var a)) (a_fmt a) = Ok (fmt p)
  /\ data p = Dict.of_pairs (map (fun name => (name, [])) (as_list (a_var a)))
  /\ time p = [] /\ fig p = None
  /\ scrolling p = a_scrolling a /\ xlim p = a_xlim a /\ ylim p = a_ylim a
  /\ legend p = a_legend a /\ pause p = a_pause a
  /\ output_dir p = a_output_dir a.
Proof.
  unfold __init__, rbind.
  destruct (_prepare_format_option _ _) as [d|]; [|discriminate].
  destruct (or_default (a_title a) _) as [t|]; [|discriminate].
  destruct (or_default (a_ylabel a) _) as [y|]; [|discriminate].
  intros H. injection H as <-. simpl. repeat split; reflexivity.
Qed.

(** Construction succeeds as soon as there is a name and the styles fit. *)
Lemma init_ok a :
  as_list (a_var a) <> [] ->
  List.length (as_list (a_fmt a)) = 1%nat
  \/ List.length (as_list (a_fmt a)) = List.length (as_list (a_var a)) ->
  exists p, __init__ a = Ok p.
Proof.
  intros Hn Hf. unfold __init__, rbind.
  destruct (prepare_format_ok _ _ Hf) as [-> _].
  destruct (or_default_ok (a_title a) _ Hn) as [t ->].
  destruct (or_default_ok (a_ylabel a) _ Hn) as [y ->].
  eauto.
Qed.

Lemma init_series a p name :
  __init__ a = Ok p -> In name (var_names p) ->
  Dict.get (data p) name = Some [].
Proof.
  intros H Hin. destruct (init_inv a p H) as (Hn & _ & Hd & _).
  rewrite Hd, get_of_pairs. apply get_const.
  - intros kv Hkv. apply in_rev, in_map_iff in Hkv.
    now destruct Hkv as (x & <- & _).
  - unfold Dict.keys. rewrite map_rev, map_map. simpl. rewrite map_id.
    apply in_rev. rewrite rev_involutive. congruence.
Qed.

Lemma init_wf a p : __init__ a = Ok p -> wf p.
Proof.
  intros H. destruct (init_inv a p H) as (Hn & Hf & Hd & _).
  constructor.
  - intros name Hin. now rewrite (init_series a p name H Hin).
  - intros name Hin. rewrite Hd in Hin.
    apply (proj1 (keys_of_pairs _ _)) in Hin.
    rewrite map_map in Hin. simpl in Hin. rewrite map_id in Hin. congruence.
  - rewrite Hd. apply nodup_of_pairs.
  - intros name Hin. apply prepare_format_inv in Hf. destruct Hf as [-> L].
    apply get_in_keys, keys_of_pairs.
    rewrite keys_combine by (symmetry; exact L). congruence.
Qed.

Lemma init_balanced a p : __init__ a = Ok p -> balanced p.
Proof.
  intros H name Hin. exists []. split.
  - now apply (init_series a p).
  - destruct (init_inv a p H) as (_ & _ & _ & -> & _). reflexivity.
Qed.
End Construction.

(** ** Invariants of the hooks *)

Section Invariants.
Import DictFacts.

Lemma wf_sampling p t env l :
  wf p -> wf (set_data (set_time p t) (pushes env l (data p))).
Proof.
  intros [Hd Hk Hn Hf]. constructor; simpl.
  - intros name Hin. apply pushes_present. auto.
  - intros name. rewrite pushes_keys_eq. auto.
  - now rewrite pushes_keys_eq.
  - exact Hf.
Qed.

Lemma wf_set_fig p f : wf p -> wf (set_fig p f).
Proof. intros [Hd Hk Hn Hf]. now constructor. Qed.

Lemma record_sample_state now env p :
  wf p ->
  exists l, state_of (record_sample now env p)
            = set_data (set_time p (time p ++ [now])) (pushes env l (data p)).
Proof.
  intros Hwf.
  destruct (readable_or_first_missing (var_names p) env)
    as [Hr|(pre & k & post & Hn & Hr & Hk)].
  - exists (var_names p). rewrite record_sample_ok; auto. apply Hwf.
  - exists pre. rewrite (record_sample_fail now env p pre k post); auto.
    apply Hwf.
Qed.

Lemma plot_state now env bk p :
  state_of (plot now env bk p) = state_of (record_sample now env p).
Proof.
  rewrite plot_run.
  destruct (record_sample now env p) as [[[[]|e] p1] t1]; auto.
  apply keeps_render.
Qed.

Lemma update_state now env bk p :
  state_of (update now env bk p)
  = match fig p with
    | Some _ => state_of (record_sample now env p)
    | None => p
    end.
Proof.
  destruct (fig p) as [n|] eqn:Hfig.
  - rewrite (update_run now env bk p n Hfig), <- (plot_state now env bk p).
    destruct (plot now env bk p) as [[[[]|e] p1] t1]; auto.
    destruct (get_fignums bk); auto.
    destruct (opt_str_truthy (output_dir p)); auto.
    apply keeps_save.
  - now rewrite update_unstarted.
Qed.

Lemma start_state now env bk p :
  state_of (start now env bk p)
  = state_of (record_sample now env (set_fig p (Some (new_figure bk)))).
Proof. rewrite start_run. simpl. now rewrite update_state. Qed.

(** The object after a hook: the sample is recorded up to some name. *)
Lemma hook_state c p :
  wf p ->
  state_of (run_hook c p) = p
  \/ exists f now env l,
       state_of (run_hook c p)
       = set_data (set_time (set_fig p f) (time p ++ [now]))
                  (pushes env l (data p)).
Proof.
  intros Hwf. destruct c as [now env bk|now env bk]; simpl.
  - right. rewrite start_state.
    destruct (record_sample_state now env _ (wf_set_fig p (Some (new_figure bk)) Hwf))
      as [l ->].
    now exists (Some (new_figure bk)), now, env, l.
  - unfold step. rewrite update_state. destruct (fig p) eqn:Hfig; [|now left].
    right. destruct (record_sample_state now env p Hwf) as [l ->].
    exists (fig p), now, env, l. now destruct p.
Qed.

Lemma hook_wf c p : wf p -> wf (state_of (run_hook c p)).
Proof.
  intros Hwf. destruct (hook_state c p Hwf) as [->|(f & now & env & l & ->)]; auto.
  apply (wf_sampling (set_fig p f)). now apply wf_set_fig.
Qed.

Lemma hook_names c p :
  wf p -> var_names (state_of (run_hook c p)) = var_names p.
Proof.
  intros Hwf. now destruct (hook_state c p Hwf) as [->|(f & now & env & l & ->)].
Qed.

Lemma hooks_wf cs p : wf p -> wf (run_hooks cs p).
Proof.
  revert p. induction cs as [|c r IH]; intros p H; simpl; auto.
  apply IH. now apply hook_wf.
Qed.

Lemma hooks_names cs p :
  wf p -> var_names (run_hooks cs p) = var_names p.
Proof.
  revert p. induction cs as [|c r IH]; intros p H; simpl; auto.
  rewrite IH by now apply hook_wf. now apply hook_names.
Qed.

(** With distinct names a sample that succeeds keeps the series level. *)
Lemma sampled_balanced now env p :
  wf p -> NoDup (var_names p) -> balanced p -> readable (var_names p) env ->
  balanced (sampled now env p).
Proof.
  intros Hwf Hnd Hb Hr name Hin. simpl in Hin.
  destruct (Hb name Hin) as (s & Hs & Hl).
  destruct (Dict.get env name) as [v|] eqn:Ev; [| now elim (Hr name Hin)].
  exists (s ++ [v]). split.
  - simpl. now apply pushes_in.
  - simpl. rewrite !length_app. simpl. congruence.
Qed.

Lemma balanced_set_fig p f : balanced p -> balanced (set_fig p f).
Proof. intros H. exact H. Qed.

Lemma hook_balanced c p :
  wf p -> NoDup (var_names p) -> balanced p ->
  readable (var_names p) (hook_env c) ->
  balanced (state_of (run_hook c p)).
Proof.
  intros Hwf Hnd Hb Hr. destruct c as [now env bk|now env bk]; simpl in *.
  - rewrite start_state.
    rewrite record_sample_ok; [| apply Hwf | exact Hr].
    apply (sampled_balanced now env (set_fig p _)); auto using wf_set_fig.
  - unfold step. rewrite update_state. destruct (fig p); auto.
    rewrite record_sample_ok; [| apply Hwf | exact Hr].
    now apply sampled_balanced.
Qed.

Lemma hooks_balanced cs p :
  wf p -> NoDup (var_names p) -> balanced p ->
  Forall (fun c => readable (var_names p) (hook_env c)) cs ->
  balanced (run_hooks cs p).
Proof.
  revert p. induction cs as [|c r IH]; intros p Hwf Hnd Hb Hcs; simpl; auto.
  inversion Hcs as [|? ? Hc Hr]; subst.
  apply IH.
  - now apply hook_wf.
  - now rewrite hook_names.
  - now apply hook_balanced.
  - now rewrite hook_names.
Qed.

(** After a sample that succeeds no series is empty. *)
Lemma sampled_ready now env p :
  wf p -> var_names p <> [] -> readable (var_names p) env ->
  time (sampled now env p) <> []
  /\ data (sampled now env p) <> []
  /\ Forall (fun s => s <> []) (Dict.values (data (sampled now env p))).
Proof.
  intros Hwf Hne Hr. simpl. repeat split.
  - destruct (time p); discriminate.
  - intros E. destruct (var_names p) as [|n r] eqn:En; [congruence|].
    assert (Hin : In n (Dict.keys (pushes env (n :: r) (data p)))).
    { rewrite pushes_keys_eq. apply get_in_keys, Hwf. rewrite En. now left. }
    rewrite E in Hin. exact Hin.
  - apply Forall_forall. intros s Hs.
    apply in_map_iff in Hs. destruct Hs as ([k s'] & <- & Hks). simpl.
    assert (Hk : In k (Dict.keys (data p))).
    { rewrite <- (pushes_keys_eq env (var_names p)).
      change k with (fst (k, s')). now apply in_map. }
    destruct (pushes_nonempty env (var_names p) (data p) k)
      as (s & Hget & Hnonempty).
    + now apply Hwf.
    + now apply get_in_keys.
    + apply Hr. now apply Hwf.
    + rewrite (get_in_nodup _ k s') in Hget; auto.
      * congruence.
      * rewrite pushes_keys_eq. apply Hwf.
Qed.
End Invariants.

(** ** A hook call that completes *)

(** The file a redraw writes. *)
Definition frame_path (dir : string) (now : Z) : string :=
  path_join dir (format_05d now ++ ".png")%string.

Definition frame_calls (now : Z) (p : VariablePlotter) : list event :=
  match output_dir p with
  | Some dir => if str_truthy dir then [Savefig (frame_path dir now)] else []
  | None => []
  end.

(** The calls of lines 101-108 on the object [p], given what the value axis
    got ([yl]) and the extreme times. *)
Definition render_calls (p : VariablePlotter) (yl : list event) (tmin tmax : Z)
  : list event :=
  lines p (fst (select_window p)) (snd (select_window p))
  ++ legend_calls p
  ++ [SetXlabel (xlabel p); SetYlabel (ylabel p)]
  ++ yl
  ++ match xlim p with
     | Some (x0, x1) =>
         [SetXlim (Qmin x0 (inject_Z tmin)) (Qmax x1 (inject_Z tmax))]
     | None => []
     end
  ++ [SetIntegerLocator].

Lemma update_ok_run now env bk p n :
  wf p -> var_names p <> [] -> NoDup (var_names p) -> balanced p ->
  fig p = Some n -> readable (var_names p) env ->
  exists yl tmin tmax,
    (yl = [] \/ exists lo hi, yl = [SetYlim lo hi])
    /\ is_least Z.le tmin (time p ++ [now])
    /\ is_greatest Z.le tmax (time p ++ [now])
    /\ update now env bk p
       = (match get_fignums bk with [] => Raise SystemExit | _ => Ok tt end,
          sampled now env p,
          [Figure n; Clf]
          ++ render_calls (sampled now env p) yl tmin tmax
          ++ [Draw; Pause (pause p)]
          ++ match get_fignums bk with
             | [] => []
             | _ => frame_calls now p
             end)
    /\ limit_values bk (sampled now env p) (sampled now env p)
       = (Ok tt, sampled now env p, yl).
Proof.
  intros Hwf Hne Hnd Hb Hfig Hr.
  destruct (sampled_ready now env p Hwf Hne Hr) as (Ht & Hd & Hall).
  assert (Hwf1 : wf (sampled now env p)) by now apply wf_sampling.
  destruct (render_run bk (sampled now env p))
    as (yl & tmin & tmax & Hyl & L1 & L2 & E & Ey); auto.
  { simpl. congruence. }
  { intros name Hin. apply Hwf1. now apply Hwf1. }
  { apply balanced_level; [exact Hwf1 | now apply sampled_balanced]. }
  exists yl, tmin, tmax.
  split; [exact Hyl|]. split; [exact L1|]. split; [exact L2|].
  split; [|exact Ey].
  rewrite (update_run now env bk p n Hfig), plot_run.
  rewrite record_sample_ok; [| apply Hwf | exact Hr].
  rewrite E. unfold result_of, state_of, trace_of. simpl fst. simpl snd.
  fold (render_calls (sampled now env p) yl tmin tmax).
  destruct (get_fignums bk) as [|g gs]; [reflexivity|].
  unfold frame_calls, opt_str_truthy.
  destruct (output_dir p) as [dir|] eqn:Ed; [|now rewrite app_nil_r].
  destruct (str_truthy dir); [|now rewrite app_nil_r].
  rewrite (save_run now (sampled now env p) dir n); auto.
Qed.

(** The same without level series: the redraw may stop at the first series
    that is not as long as the times, before any limit is set and before
    the figure is drawn or saved. *)
Lemma update_cases now env bk p n :
  wf p -> var_names p <> [] -> fig p = Some n -> readable (var_names p) env ->
  (exists yl tmin tmax,
     (yl = [] \/ exists lo hi, yl = [SetYlim lo hi])
     /\ is_least Z.le tmin (time p ++ [now])
     /\ is_greatest Z.le tmax (time p ++ [now])
     /\ update now env bk p
        = (match get_fignums bk with [] => Raise SystemExit | _ => Ok tt end,
           sampled now env p,
           [Figure n; Clf]
           ++ render_calls (sampled now env p) yl tmin tmax
           ++ [Draw; Pause (pause p)]
           ++ match get_fignums bk with
              | [] => []
              | _ => frame_calls now p
              end)
     /\ limit_values bk (sampled now env p) (sampled now env p)
        = (Ok tt, sampled now env p, yl))
  \/ (exists k,
        update now env bk p
        = (Raise shape_error, sampled now env p,
           [Figure n; Clf]
           ++ lines (sampled now env p)
                    (fst (select_window (sampled now env p)))
                    (firstn k (snd (select_window (sampled now env p)))))).
Proof.
  intros Hwf Hne Hfig Hr.
  destruct (sampled_ready now env p Hwf Hne Hr) as (Ht & Hd & Hall).
  assert (Hwf1 : wf (sampled now env p)) by now apply wf_sampling.
  destruct (render_cases bk (sampled now env p))
    as [(yl & tmin & tmax & Hyl & L1 & L2 & E & Ey)|[k E]]; auto.
  { simpl. congruence. }
  { intros name Hin. apply Hwf1. now apply Hwf1. }
  - left. exists yl, tmin, tmax.
    split; [exact Hyl|]. split; [exact L1|]. split; [exact L2|].
    split; [|exact Ey].
    rewrite (update_run now env bk p n Hfig), plot_run.
    rewrite record_sample_ok; [| apply Hwf | exact Hr].
    rewrite E. unfold result_of, state_of, trace_of. simpl fst. simpl snd.
    fold (render_calls (sampled now env p) yl tmin tmax).
    destruct (get_fignums bk) as [|g gs]; [reflexivity|].
    unfold frame_calls, opt_str_truthy.
    destruct (output_dir p) as [dir|] eqn:Ed; [|now rewrite app_nil_r].
    destruct (str_truthy dir); [|now rewrite app_nil_r].
    rewrite (save_run now (sampled now env p) dir n); auto.
  - right. exists k.
    rewrite (update_run now env bk p n Hfig), plot_run.
    rewrite record_sample_ok; [| apply Hwf | exact Hr].
    now rewrite E.
Qed.

(** What each kind of call contributes to the observations. *)
Section Observations.
Lemma plotted_app t1 t2 : plotted (t1 ++ t2) = plotted t1 ++ plotted t2.
Proof. apply flat_map_app. Qed.
Lemma saved_files_app t1 t2 :
  saved_files (t1 ++ t2) = saved_files t1 ++ saved_files t2.
Proof. apply flat_map_app. Qed.
Lemma xlim_set_app t1 t2 : xlim_set (t1 ++ t2) = xlim_set t1 ++ xlim_set t2.
Proof. apply flat_map_app. Qed.
Lemma ylim_set_app t1 t2 : ylim_set (t1 ++ t2) = ylim_set t1 ++ ylim_set t2.
Proof. apply flat_map_app. Qed.

Lemma plotted_lines p xs d :
  plotted (lines p xs d) = map (fun kv => (xs, snd kv, fst kv)) d.
Proof. induction d as [|kv r IH]; simpl; congruence. Qed.
Lemma saved_files_lines p xs d : saved_files (lines p xs d) = [].
Proof. induction d as [|kv r IH]; simpl; congruence. Qed.
Lemma xlim_set_lines p xs d : xlim_set (lines p xs d) = [].
Proof. induction d as [|kv r IH]; simpl; congruence. Qed.

Lemma legend_calls_obs p :
  plotted (legend_calls p) = [] /\ saved_files (legend_calls p) = []
  /\ xlim_set (legend_calls p) = [].
Proof.
  unfold legend_calls. destruct (legend p) as [loc|]; auto.
  destruct (str_truthy loc); auto.
Qed.

Lemma ylim_calls_obs yl :
  yl = [] \/ (exists lo hi, yl = [SetYlim lo hi]) ->
  plotted yl = [] /\ saved_files yl = [] /\ xlim_set yl = [].
Proof. intros [->|(lo & hi & ->)]; auto. Qed.

Lemma render_calls_obs p yl tmin tmax :
  yl = [] \/ (exists lo hi, yl = [SetYlim lo hi]) ->
  plotted (render_calls p yl tmin tmax)
  = map (fun kv => (fst (select_window p), snd kv, fst kv)) (snd (select_window p))
  /\ saved_files (render_calls p yl tmin tmax) = []
  /\ xlim_set (render_calls p yl tmin tmax)
     = match xlim p with
       | Some (x0, x1) => [(Qmin x0 (inject_Z tmin), Qmax x1 (inject_Z tmax))]
       | None => []
       end.
Proof.
  intros Hyl. unfold render_calls.
  destruct (legend_calls_obs p) as (P1 & S1 & X1).
  destruct (ylim_calls_obs yl Hyl) as (P2 & S2 & X2).
  rewrite !plotted_app, !saved_files_app, !xlim_set_app.
  rewrite plotted_lines, saved_files_lines, xlim_set_lines.
  rewrite P1, S1, X1, P2, S2, X2.
  destruct (xlim p) as [[x0 x1]|]; simpl; now rewrite ?app_nil_r.
Qed.

Lemma frame_calls_obs now p :
  plotted (frame_calls now p) = [] /\ xlim_set (frame_calls now p) = [].
Proof.
  unfold frame_calls. destruct (output_dir p) as [dir|]; auto.
  destruct (str_truthy dir); auto.
Qed.
End Observations.

(** ** The display window *)

(** "The last min(N, L) elements" of a series of length L. *)
Definition last_min {A} (N : Z) (l : list A) : list A :=
  last_n (Nat.min (Z.to_nat N) (List.length l)) l.

Lemma last_n_spec {A} (n : nat) (l : list A) :
  (n <= List.length l)%nat ->
  List.length (last_n n l) = n /\ exists older, l = older ++ last_n n l.
Proof.
  intros H. unfold last_n. split.
  - rewrite length_skipn. lia.
  - exists (firstn (List.length l - n) l). now rewrite firstn_skipn.
Qed.

Lemma last_min_spec {A} (N : Z) (l : list A) :
  0 <= N ->
  Z.of_nat (List.length (last_min N l)) = Z.min N (Z.of_nat (List.length l))
  /\ exists older, l = older ++ last_min N l.
Proof.
  intros HN. unfold last_min.
  destruct (last_n_spec (Nat.min (Z.to_nat N) (List.length l)) l) as [Hl Hs];
    [lia|].
  split; [rewrite Hl; lia | exact Hs].
Qed.

Lemma slice_from_last {A} (N : Z) (l : list A) :
  0 < N -> slice_from (-1 * N) l = last_min N l.
Proof.
  intros HN. unfold slice_from, last_min, last_n.
  destruct (Z.ltb_spec (-1 * N) 0) as [_|?]; [|lia].
  f_equal. lia.
Qed.

Lemma select_window_scrolling p :
  0 < scrolling p ->
  select_window p
  = (last_min (scrolling p) (time p),
     map (fun kv => (fst kv, last_min (scrolling p) (snd kv))) (data p)).
Proof.
  intros HN. unfold select_window.
  destruct (Z.eqb_spec (scrolling p) 0) as [?|_]; [lia|]. cbn [negb].
  rewrite slice_from_last by assumption. unfold Dict.items. f_equal.
  apply map_ext. intros kv. now rewrite slice_from_last.
Qed.

Lemma select_window_all p :
  scrolling p = 0 -> select_window p = (time p, data p).
Proof. intros HN. unfold select_window. now rewrite HN. Qed.

(** What can be seen of a redraw whose reads succeed. *)
Lemma update_obs now env bk p n :
  wf p -> var_names p <> [] -> NoDup (var_names p) -> balanced p ->
  fig p = Some n -> readable (var_names p) env ->
  let r := update now env bk p in
  let p1 := sampled now env p in
  exists tmin tmax,
    is_least Z.le tmin (time p ++ [now])
    /\ is_greatest Z.le tmax (time p ++ [now])
    /\ result_of r
       = match get_fignums bk with [] => Raise SystemExit | _ => Ok tt end
    /\ state_of r = p1
    /\ plotted (trace_of r)
       = map (fun kv => (fst (select_window p1), snd kv, fst kv))
             (snd (select_window p1))
    /\ xlim_set (trace_of r)
       = match xlim p with
         | Some (x0, x1) => [(Qmin x0 (inject_Z tmin), Qmax x1 (inject_Z tmax))]
         | None => []
         end
    /\ saved_files (trace_of r)
       = match get_fignums bk with
         | [] => []
         | _ => saved_files (frame_calls now p)
         end.
Proof.
  intros Hwf Hne Hnd Hb Hfig Hr r p1.
  destruct (update_ok_run now env bk p n Hwf Hne Hnd Hb Hfig Hr)
    as (yl & tmin & tmax & Hyl & L1 & L2 & E & _).
  exists tmin, tmax. subst r. rewrite E.
  destruct (render_calls_obs p1 yl tmin tmax Hyl) as (P & S & X).
  destruct (frame_calls_obs now p) as (Pf & Xf).
  unfold result_of, state_of, trace_of. cbn [fst snd].
  rewrite !plotted_app, !xlim_set_app, !saved_files_app.
  fold p1. rewrite P, S, X.
  split; [exact L1|]. split; [exact L2|].
  split; [reflexivity|]. split; [reflexivity|].
  simpl. split; [|split].
  - destruct (get_fignums bk); rewrite ?Pf; apply app_nil_r.
  - destruct (get_fignums bk); rewrite ?Xf; apply app_nil_r.
  - now destruct (get_fignums bk).
Qed.


Lemma start_parts now env bk p :
  let u := update now env bk (set_fig p (Some (new_figure bk))) in
  result_of (start now env bk p) = result_of u
  /\ state_of (start now env bk p) = state_of u
  /\ trace_of (start now env bk p)
     = [Ion; NewFigure (new_figure bk); SetWindowTitle (title p)] ++ trace_of u.
Proof. rewrite start_run. now repeat split. Qed.

(** The same for a hook: [start] makes the figure first. *)
Lemma hook_obs c p :
  wf p -> var_names p <> [] -> NoDup (var_names p) -> balanced p ->
  ready c p -> readable (var_names p) (hook_env c) ->
  let r := run_hook c p in
  exists tmin tmax,
    is_least Z.le tmin (time p ++ [hook_now c])
    /\ is_greatest Z.le tmax (time p ++ [hook_now c])
    /\ result_of r
       = match get_fignums (hook_backend c) with
         | [] => Raise SystemExit
         | _ => Ok tt
         end
    /\ time (state_of r) = time p ++ [hook_now c]
    /\ data (state_of r) = pushes (hook_env c) (var_names p) (data p)
    /\ fig (state_of r) <> None
    /\ plotted (trace_of r)
       = map (fun kv => (fst (select_window (state_of r)), snd kv, fst kv))
             (snd (select_window (state_of r)))
    /\ xlim_set (trace_of r)
       = match xlim p with
         | Some (x0, x1) => [(Qmin x0 (inject_Z tmin), Qmax x1 (inject_Z tmax))]
         | None => []
         end
    /\ saved_files (trace_of r)
       = match get_fignums (hook_backend c) with
         | [] => []
         | _ => saved_files (frame_calls (hook_now c) p)
         end.
Proof.
  intros Hwf Hne Hnd Hb Hready Hr.
  destruct c as [now env bk|now env bk]; simpl in *.
  - destruct (update_obs now env bk (set_fig p (Some (new_figure bk))) (new_figure bk))
      as (tmin & tmax & L1 & L2 & R & S & P & X & F); auto using wf_set_fig.
    exists tmin, tmax.
    destruct (start_parts now env bk p) as (-> & -> & ->).
    rewrite plotted_app, xlim_set_app, saved_files_app.
    rewrite R, S, P, X, F. simpl.
    split; [exact L1|]. split; [exact L2|].
    repeat (split; [reflexivity || discriminate|]). reflexivity.
  - destruct (fig p) as [n|] eqn:Hfig; [|congruence].
    destruct (update_obs now env bk p n)
      as (tmin & tmax & L1 & L2 & R & S & P & X & F); auto.
    exists tmin, tmax. unfold step. rewrite R, S, P, X, F. simpl.
    rewrite Hfig.
    split; [exact L1|]. split; [exact L2|].
    repeat (split; [reflexivity || discriminate|]). reflexivity.
Qed.
(** * The claims *)

(** ** C1 *)

(** The value-axis limits in the words of the spec: the floor merged with
    the least and the greatest of all accumulated values, widened by 1% of
    the span the backend computed. *)
Definition spec_value_limits (floor autoscaled : Q * Q) (dmin dmax : Q) : Q * Q :=
  let margin := ((1 # 100) * Qabs (snd autoscaled - fst autoscaled))%Q in
  (Qmin (fst floor) (dmin - margin), Qmax (snd floor) (dmax + margin)).

Module ValueAxis.
Definition args : Args :=
  mkArgs (Lst ["a"; "b"]) (Str "b") 0 None "Time" None
         None (Some (3, 4)%Q) None (1 # 1000) None.
Definition backend : Backend := mkBackend 1 (0, 5)%Q [1%nat].
Definition env0 : Env := [("a", 1%Q); ("b", 2%Q)].
Definition env1 : Env := [("a", 5%Q); ("b", 0%Q)].
End ValueAxis.

(** C1 (the code departs from the claim): a plotter tracking [a] and [b]
    with [ylim = (3, 4)], started on [a = 1, b = 2] and stepped on
    [a = 5, b = 0], has accumulated the values 1, 5, 2, 0, whose least is 0
    and greatest 5.  The redraw sets the value axis to [0.95, 4]: it takes
    the least value of the series that compares smallest as a list, [1, 5],
    and the greatest of the one that compares largest, [2, 0].  The claim
    asks for [min(3, 0 - margin), max(4, 5 + margin)]. *)
Theorem C1_value_limits_of_two_series :
  exists p0,
    __init__ ValueAxis.args = Ok p0
    /\ let p1 := state_of (start 0 ValueAxis.env0 ValueAxis.backend p0) in
       let r := step 1 ValueAxis.env1 ValueAxis.backend p1 in
       result_of r = Ok tt
       /\ is_least Qle 0%Q (all_values (state_of r))
       /\ is_greatest Qle 5%Q (all_values (state_of r))
       /\ exists lo hi,
            ylim_set (trace_of r) = [(lo, hi)]
            /\ (lo == 19 # 20)%Q /\ (hi == 4)%Q
            /\ ~ (lo == fst (spec_value_limits (3, 4) (get_ylim ValueAxis.backend) 0 5))%Q
            /\ ~ (hi == snd (spec_value_limits (3, 4) (get_ylim ValueAxis.backend) 0 5))%Q.
Proof.
  eexists. split; [reflexivity|].
  cbv zeta. split; [reflexivity|].
  split; [|split].
  - split; [vm_compute; tauto|].
    intros x Hx. vm_compute in Hx.
    repeat (destruct Hx as [<-|Hx]; [discriminate|]). contradiction.
  - split; [vm_compute; tauto|].
    intros x Hx. vm_compute in Hx.
    repeat (destruct Hx as [<-|Hx]; [discriminate|]). contradiction.
  - eexists. eexists. split; [vm_compute; reflexivity|].
    repeat split; try reflexivity; discriminate.
Qed.

(** *** With one tracked variable the code does what C1 says *)

Lemma Qltb_true a b : Qltb a b = true -> (a < b)%Q.
Proof.
  unfold Qltb. intros H. apply Qnot_le_lt. intros Hle.
  apply Qle_bool_iff in Hle. rewrite Hle in H. discriminate.
Qed.

Lemma Qltb_false a b : Qltb a b = false -> (b <= a)%Q.
Proof.
  unfold Qltb. intros H. apply Qle_bool_iff.
  now destruct (Qle_bool b a).
Qed.

Lemma min_from_Q_le best l x :
  In x (best :: l) -> (min_from Qltb best l <= x)%Q.
Proof.
  revert best x. induction l as [|y r IH]; intros best x H; simpl in *.
  - destruct H as [->|[]]. apply Qle_refl.
  - destruct (Qltb y best) eqn:E.
    + apply Qltb_true in E. destruct H as [->|[->|H]].
      * apply Qle_trans with y; [apply IH; now left | now apply Qlt_le_weak].
      * apply IH. now left.
      * apply IH. now right.
    + apply Qltb_false in E. destruct H as [->|[->|H]].
      * apply IH. now left.
      * apply Qle_trans with best; [apply IH; now left | exact E].
      * apply IH. now right.
Qed.

Lemma max_from_Q_ge best l x :
  In x (best :: l) -> (x <= max_from Qltb best l)%Q.
Proof.
  revert best x. induction l as [|y r IH]; intros best x H; simpl in *.
  - destruct H as [->|[]]. apply Qle_refl.
  - destruct (Qltb best y) eqn:E.
    + apply Qltb_true in E. destruct H as [->|[->|H]].
      * apply Qle_trans with y; [now apply Qlt_le_weak | apply IH; now left].
      * apply IH. now left.
      * apply IH. now right.
    + apply Qltb_false in E. destruct H as [->|[->|H]].
      * apply IH. now left.
      * apply Qle_trans with best; [exact E | apply IH; now left].
      * apply IH. now right.
Qed.

Lemma limit_values_one bk p name s y0 y1 :
  data p = [(name, s)] -> s <> [] -> ylim p = Some (y0, y1) ->
  exists dmin dmax,
    is_least Qle dmin s /\ is_greatest Qle dmax s
    /\ limit_values bk p p
       = (Ok tt, p,
          [SetYlim
             (Qmin y0 (dmin - axes_margin p
                              * Qabs (snd (get_ylim bk) - fst (get_ylim bk))))
             (Qmax y1 (dmax + axes_margin p
                              * Qabs (snd (get_ylim bk) - fst (get_ylim bk))))]).
Proof.
  intros Hd Hs Hy. destruct s as [|x r]; [congruence|].
  exists (min_from Qltb x r), (max_from Qltb x r). split; [|split].
  - split; [apply min_from_in | intros z Hz; now apply min_from_Q_le].
  - split; [apply max_from_in | intros z Hz; now apply max_from_Q_ge].
  - unfold limit_values. rewrite Hy, Hd. unfold bind, lift, call. simpl.
    now rewrite Qpair_min_Qmin, Qpair_max_Qmax.
Qed.

Lemma single_series p name :
  wf p -> var_names p = [name] -> exists s, data p = [(name, s)].
Proof.
  intros [Hd Hk Hn _] Hv. rewrite Hv in Hd, Hk.
  destruct (data p) as [|[k s] r].
  - exfalso. apply (Hd name); simpl; auto.
  - assert (k = name) as ->.
    { destruct (Hk k) as [E|[]]; simpl; auto. }
    destruct r as [|[k' s'] r']; [now exists s|].
    exfalso. assert (k' = name) as ->.
    { destruct (Hk k') as [E|[]]; simpl; auto. }
    inversion Hn as [|? ? Hni _]. apply Hni. simpl. auto.
Qed.

Lemma ylim_set_lines p xs d : ylim_set (lines p xs d) = [].
Proof. induction d as [|kv r IH]; simpl; congruence. Qed.

Lemma ylim_set_render_calls p yl tmin tmax :
  ylim_set (render_calls p yl tmin tmax) = ylim_set yl.
Proof.
  unfold render_calls, legend_calls.
  rewrite !ylim_set_app, ylim_set_lines.
  destruct (legend p) as [loc|]; [destruct (str_truthy loc)|];
    destruct (xlim p) as [[x0 x1]|]; simpl; now rewrite app_nil_r.
Qed.

Lemma update_ylim now env bk p n :
  wf p -> var_names p <> [] -> NoDup (var_names p) -> balanced p ->
  fig p = Some n -> readable (var_names p) env ->
  exists yl,
    limit_values bk (sampled now env p) (sampled now env p)
    = (Ok tt, sampled now env p, yl)
    /\ state_of (update now env bk p) = sampled now env p
    /\ ylim_set (trace_of (update now env bk p)) = ylim_set yl.
Proof.
  intros Hwf Hne Hnd Hb Hfig Hr.
  destruct (update_ok_run now env bk p n Hwf Hne Hnd Hb Hfig Hr)
    as (yl & tmin & tmax & _ & _ & _ & E & Ey).
  exists yl. split; [exact Ey|]. rewrite E.
  unfold state_of, trace_of. cbn [fst snd]. split; [reflexivity|].
  rewrite !ylim_set_app, ylim_set_render_calls. simpl.
  unfold frame_calls.
  destruct (get_fignums bk); [now rewrite app_nil_r|].
  destruct (output_dir p) as [dir|]; [destruct (str_truthy dir)|];
    simpl; now rewrite app_nil_r.
Qed.

(** X14: on a redraw of a plotter that tracks one variable, has as many
    values as times and has [ylim = (y0, y1)], the value axis is set once, to
    [min(y0, dmin - margin)] and [max(y1, dmax + margin)], [dmin] and [dmax]
    being the least and the greatest accumulated value and [margin] 1% of
    the span the backend computed. *)
Lemma value_limits_one_series c p name y0 y1 :
  wf p -> var_names p = [name] -> axes_margin p = 1 # 100 -> balanced p ->
  ready c p -> readable (var_names p) (hook_env c) ->
  ylim p = Some (y0, y1) ->
  let r := run_hook c p in
  exists dmin dmax,
    is_least Qle dmin (all_values (state_of r))
    /\ is_greatest Qle dmax (all_values (state_of r))
    /\ ylim_set (trace_of r)
       = [spec_value_limits (y0, y1) (get_ylim (hook_backend c)) dmin dmax].
Proof.
  intros Hwf Hv Hm Hb Hready Hr Hy r.
  assert (Hne : var_names p <> []) by (rewrite Hv; discriminate).
  set (q := match c with
            | Start _ _ bk => set_fig p (Some (new_figure bk))
            | Step _ _ _ => p
            end).
  assert (Hq : wf q /\ var_names q = [name] /\ axes_margin q = 1 # 100
               /\ ylim q = Some (y0, y1) /\ fig q <> None).
  { subst q. destruct c; simpl in *.
    - split; [now apply wf_set_fig|]. split; [exact Hv|]. split; [exact Hm|].
      split; [exact Hy|]. discriminate.
    - split; [exact Hwf|]. split; [exact Hv|]. split; [exact Hm|].
      split; [exact Hy|]. exact Hready. }
  destruct Hq as (Hwfq & Hvq & Hmq & Hyq & Hfq).
  destruct (fig q) as [n|] eqn:Efig; [clear Hfq | congruence].
  assert (Hrq : readable (var_names q) (hook_env c)) by now rewrite Hvq, <- Hv.
  assert (Hneq : var_names q <> []) by (rewrite Hvq; discriminate).
  assert (Hndq : NoDup (var_names q)).
  { rewrite Hvq. repeat constructor. intros []. }
  assert (Hbq : balanced q) by (subst q; destruct c; exact Hb).
  destruct (update_ylim (hook_now c) (hook_env c) (hook_backend c) q n
              Hwfq Hneq Hndq Hbq Efig Hrq) as (yl & Ey & Es & Et).
  set (p1 := sampled (hook_now c) (hook_env c) q) in *.
  assert (Hwf1 : wf p1) by now apply wf_sampling.
  destruct (single_series p1 name Hwf1 Hvq) as [s Hs].
  destruct (sampled_ready (hook_now c) (hook_env c) q Hwfq Hneq Hrq)
    as (_ & _ & Hall).
  fold p1 in Hall. rewrite Hs in Hall. inversion Hall as [|? ? Hnonempty _]; subst.
  destruct (limit_values_one (hook_backend c) p1 name s y0 y1 Hs Hnonempty Hyq)
    as (dmin & dmax & L1 & L2 & E).
  rewrite E in Ey. injection Ey as <-.
  assert (Hstate : state_of r = p1 /\ ylim_set (trace_of r) = ylim_set (trace_of (update (hook_now c) (hook_env c) (hook_backend c) q))).
  { subst r q. destruct c as [now env bk|now env bk]; simpl in *.
    - destruct (start_parts now env bk p) as (_ & -> & ->).
      rewrite ylim_set_app. simpl. now split.
    - unfold step. now split. }
  destruct Hstate as [-> ->]. rewrite Et.
  exists dmin, dmax. unfold all_values. rewrite Hs. simpl. rewrite app_nil_r.
  split; [exact L1|]. split; [exact L2|].
  unfold spec_value_limits. simpl.
  change (axes_margin p1) with (axes_margin q). now rewrite Hmq.
Qed.

(** ** A running plotter, for the examples *)

Module Scenario.
(** [VariablePlotter("temp", scrolling=3, xlim=(0, 2), ylim=(0, 10),
    output_dir="frames")] *)
Definition args : Args :=
  mkArgs (Str "temp") (Str "b") 3 None "Time" None
         (Some (0, 2)%Q) (Some (0, 10)%Q) None (1 # 1000) (Some "frames").

Definition fresh : VariablePlotter :=
  {| var_names := ["temp"]; fmt := [("temp", "b")]; scrolling := 3;
     title := "temp"; xlabel := "Time"; ylabel := "temp";
     xlim := Some (0, 2)%Q; ylim := Some (0, 10)%Q; legend := None;
     pause := 1 # 1000; output_dir := Some "frames"; fig := None;
     axes_margin := 1 # 100; time := []; data := [("temp", [])] |}.

Lemma fresh_built : __init__ args = Ok fresh.
Proof. reflexivity. Qed.

Definition backend : Backend := mkBackend 1 (0, 1)%Q [1%nat].
Definition closed : Backend := mkBackend 1 (0, 1)%Q [].
Definition env (v : Q) : Env := [("temp", v)].
Definition no_env : Env := [].

(** [start(0, temp=10); step(1, temp=12); step(2, temp=9)] *)
Definition calls : list hook :=
  [Start 0 (env 10) backend; Step 1 (env 12) backend; Step 2 (env 9) backend].

Definition running : VariablePlotter := run_hooks calls fresh.

Lemma running_wf : wf running.
Proof. apply hooks_wf, (init_wf args), fresh_built. Qed.

Lemma running_names : var_names running = ["temp"].
Proof. reflexivity. Qed.

Lemma readable_env v : readable ["temp"] (env v).
Proof. intros name [<-|[]]. discriminate. Qed.

Lemma running_nodup : NoDup (var_names running).
Proof. repeat constructor. intros []. Qed.

Lemma running_balanced : balanced running.
Proof. intros name [<-|[]]. eexists. split; reflexivity. Qed.
End Scenario.

(** ** C2 *)

(** C2: on a redraw ([start], or [step] once started) of a plotter with
    distinct names, as many values in every series as times, and
    [scrolling = N], the series handed to the backend are, for [N > 0], the
    last [min(N, L)] elements of the accumulated times and of every
    accumulated value series, [L] being the length of that series
    ([last_min N l] has [min(N, L)] elements and [l] ends with it); for
    [N = 0] they are the accumulated series themselves. *)
Theorem C2_display_window c p :
  wf p -> var_names p <> [] -> NoDup (var_names p) -> balanced p ->
  ready c p -> readable (var_names p) (hook_env c) ->
  let r := run_hook c p in
  let N := scrolling p in
  (0 < N ->
   plotted (trace_of r)
   = map (fun kv => (last_min N (time (state_of r)), last_min N (snd kv), fst kv))
         (data (state_of r)))
  /\ (N = 0 ->
      plotted (trace_of r)
      = map (fun kv => (time (state_of r), snd kv, fst kv)) (data (state_of r)))
  /\ (0 < N -> forall A (l : list A),
        Z.of_nat (List.length (last_min N l)) = Z.min N (Z.of_nat (List.length l))
        /\ exists older, l = older ++ last_min N l).
Proof.
  intros Hwf Hne Hnd Hb Hready Hr r N.
  destruct (hook_obs c p Hwf Hne Hnd Hb Hready Hr)
    as (tmin & tmax & _ & _ & _ & _ & _ & _ & Hp & _).
  fold r in Hp. rewrite Hp. clear Hp.
  assert (HN : scrolling (state_of r) = N).
  { subst r N. destruct (hook_state c p Hwf) as [->|(f & now & env & l & ->)];
      reflexivity. }
  split; [|split].
  - intros H. rewrite select_window_scrolling by (rewrite HN; exact H).
    cbn [fst snd]. now rewrite map_map, HN.
  - intros H. rewrite select_window_all by (rewrite HN; exact H). reflexivity.
  - intros H A l. apply last_min_spec. lia.
Qed.

Lemma C2_display_window_witness :
  wf Scenario.running /\ var_names Scenario.running <> []
  /\ NoDup (var_names Scenario.running) /\ balanced Scenario.running
  /\ ready (Step 3 (Scenario.env 15) Scenario.backend) Scenario.running
  /\ readable (var_names Scenario.running) (Scenario.env 15)
  /\ plotted (trace_of (step 3 (Scenario.env 15) Scenario.backend Scenario.running))
     = [([1; 2; 3], [12; 9; 15]%Q, "temp")].
Proof.
  assert (Hwf := Scenario.running_wf).
  assert (Hne : var_names Scenario.running <> []) by discriminate.
  assert (Hnd := Scenario.running_nodup).
  assert (Hb := Scenario.running_balanced).
  assert (Hready : ready (Step 3 (Scenario.env 15) Scenario.backend) Scenario.running)
    by discriminate.
  assert (Hr := Scenario.readable_env 15 : readable (var_names Scenario.running) _).
  repeat (split; [assumption|]).
  destruct (C2_display_window (Step 3 (Scenario.env 15) Scenario.backend)
              Scenario.running Hwf Hne Hnd Hb Hready Hr) as [H _].
  simpl run_hook in H. rewrite H by reflexivity. reflexivity.
Defined.

(** ** C3 *)

(** C3: a plotter constructed with distinct names, after any sequence of
    [start] and [step] calls in which every tracked attribute can be read
    off [env], has recorded as many values for every tracked variable as it
    has recorded time points. *)
Theorem C3_series_stay_level a p0 cs :
  __init__ a = Ok p0 ->
  NoDup (as_list (a_var a)) ->
  Forall (fun c => readable (as_list (a_var a)) (hook_env c)) cs ->
  balanced (run_hooks cs p0).
Proof.
  intros Hinit Hnd Hcs.
  assert (Hwf := init_wf a p0 Hinit).
  assert (Hb := init_balanced a p0 Hinit).
  destruct (init_inv a p0 Hinit) as (Hn & _). rewrite <- Hn in Hnd, Hcs.
  clear Hinit Hn. revert p0 Hwf Hb Hnd Hcs.
  induction cs as [|c r IH]; intros p Hwf Hb Hnd Hcs; simpl; auto.
  inversion Hcs as [|? ? Hc Hr]; subst.
  apply IH.
  - now apply hook_wf.
  - now apply hook_balanced.
  - now rewrite hook_names.
  - now rewrite hook_names.
Qed.

Lemma C3_series_stay_level_witness :
  __init__ Scenario.args = Ok Scenario.fresh
  /\ NoDup (as_list (a_var Scenario.args))
  /\ Forall (fun c => readable (as_list (a_var Scenario.args)) (hook_env c))
            Scenario.calls
  /\ balanced (run_hooks Scenario.calls Scenario.fresh).
Proof.
  assert (Hnd : NoDup (as_list (a_var Scenario.args))).
  { repeat constructor. intros []. }
  assert (Hcs : Forall (fun c => readable (as_list (a_var Scenario.args)) (hook_env c))
                       Scenario.calls).
  { repeat constructor; apply Scenario.readable_env. }
  split; [reflexivity|]. split; [exact Hnd|]. split; [exact Hcs|].
  exact (C3_series_stay_level Scenario.args Scenario.fresh Scenario.calls
           eq_refl Hnd Hcs).
Defined.

(** The names have to be distinct: [VariablePlotter(["a", "a"])] keeps one
    series for [a] and appends to it twice in every sample. *)
Example repeated_name_appends_twice :
  exists p0,
    __init__ (default_args (Lst ["a"; "a"])) = Ok p0
    /\ let p := run_hooks [Start 0 [("a", 1%Q)] Scenario.backend] p0 in
       time p = [0] /\ Dict.get (data p) "a" = Some [1; 1]%Q.
Proof. eexists. split; [reflexivity|]. split; reflexivity. Qed.

(** Its first redraw then hands [plt.plot] one time and two values, and
    stops there. *)
Example repeated_name_is_refused :
  exists p0,
    __init__ (default_args (Lst ["a"; "a"])) = Ok p0
    /\ result_of (start 0 [("a", 1%Q)] Scenario.backend p0) = Raise shape_error
    /\ trace_of (start 0 [("a", 1%Q)] Scenario.backend p0)
       = [Ion; NewFigure 1; SetWindowTitle "a & a"; Figure 1; Clf].
Proof. eexists. split; [reflexivity|]. split; reflexivity. Qed.

(** ** C4 *)

Definition with_fmt (a : Args) (f : str_or_list) : Args :=
  mkArgs (a_var a) f (a_scrolling a) (a_title a) (a_xlabel a) (a_ylabel a)
         (a_xlim a) (a_ylim a) (a_legend a) (a_pause a) (a_output_dir a).

(** C4: for a non-empty list of names, construction with one style token
    (a string, or a list of one) maps every name to it; with a list of as
    many tokens as there are names, these being distinct, it maps the i-th
    name to the i-th token; with a list of any other length it fails on the
    assertion of [_prepare_format_option] (the ConfigurationError of the
    spec). *)
Theorem C4_style_mapping a :
  as_list (a_var a) <> [] ->
  let names := as_list (a_var a) in
  (forall f tok, as_list f = [tok] ->
     exists p, __init__ (with_fmt a f) = Ok p
               /\ forall name, In name names -> Dict.get (fmt p) name = Some tok)
  /\ (forall toks, List.length toks = List.length names -> NoDup names ->
        exists p, __init__ (with_fmt a (Lst toks)) = Ok p
                  /\ forall i name tok,
                       nth_error names i = Some name ->
                       nth_error toks i = Some tok ->
                       Dict.get (fmt p) name = Some tok)
  /\ (forall toks, List.length toks <> 1%nat ->
        List.length toks <> List.length names ->
        __init__ (with_fmt a (Lst toks)) = Raise AssertionError).
Proof.
  intros Hne names. split; [|split].
  - intros f tok Hf.
    destruct (init_ok (with_fmt a f)) as [p Hp]; [exact Hne | |].
    { left. simpl. now rewrite Hf. }
    exists p. split; [exact Hp|]. intros name Hin.
    destruct (init_inv _ _ Hp) as (_ & Hfmt & _). simpl in Hfmt.
    apply prepare_format_inv in Hfmt. destruct Hfmt as [-> L].
    rewrite DictFacts.get_of_pairs. apply get_const.
    + intros [k v] Hkv. apply in_rev, in_combine_r in Hkv. simpl.
      unfold tokens_for in Hkv. rewrite Hf in Hkv.
      destruct (negb _) in Hkv.
      * rewrite list_mul_single in Hkv. now apply repeat_spec in Hkv.
      * destruct Hkv as [<-|[]]. reflexivity.
    + unfold Dict.keys. rewrite map_rev, <- in_rev, keys_combine; auto.
  - intros toks Hl Hnd.
    destruct (init_ok (with_fmt a (Lst toks))) as [p Hp]; [exact Hne | |].
    { right. exact Hl. }
    exists p. split; [exact Hp|]. intros i name tok Hn Ht.
    destruct (init_inv _ _ Hp) as (_ & Hfmt & _). simpl in Hfmt.
    apply prepare_format_inv in Hfmt. destruct Hfmt as [-> L].
    assert (E : tokens_for (as_list (a_var a)) (Lst toks) = toks).
    { unfold tokens_for. simpl. fold names. rewrite Hl.
      now rewrite Nat.eqb_refl. }
    rewrite E. rewrite DictFacts.get_of_pairs. apply DictFacts.get_in_nodup.
    + unfold Dict.keys. rewrite map_rev, keys_combine by (symmetry; exact Hl).
      apply NoDup_rev. exact Hnd.
    + apply -> in_rev. now apply (nth_error_combine _ _ i).
  - intros toks H1 H2. unfold __init__. simpl.
    now rewrite prepare_format_fail.
Qed.

Lemma C4_style_mapping_witness :
  as_list (a_var (default_args (Lst ["a"; "b"]))) <> []
  /\ (exists p, __init__ (with_fmt (default_args (Lst ["a"; "b"])) (Str "x")) = Ok p
                /\ Dict.get (fmt p) "a" = Some "x"
                /\ Dict.get (fmt p) "b" = Some "x")
  /\ (exists p, __init__ (with_fmt (default_args (Lst ["a"; "b"])) (Lst ["x"; "y"])) = Ok p
                /\ Dict.get (fmt p) "a" = Some "x"
                /\ Dict.get (fmt p) "b" = Some "y")
  /\ __init__ (with_fmt (default_args (Lst ["a"; "b"])) (Lst ["x"; "y"; "z"]))
     = Raise AssertionError.
Proof.
  assert (Hne : as_list (a_var (default_args (Lst ["a"; "b"]))) <> [])
    by discriminate.
  destruct (C4_style_mapping (default_args (Lst ["a"; "b"])) Hne)
    as (Hone & Hmany & Hbad).
  split; [exact Hne|]. split; [|split].
  - destruct (Hone (Str "x") "x" eq_refl) as (p & Hp & Hm).
    exists p. split; [exact Hp|]. split; apply Hm; simpl; auto.
  - destruct (Hmany ["x"; "y"] eq_refl) as (p & Hp & Hm).
    { repeat constructor; simpl; intuition discriminate. }
    exists p. split; [exact Hp|]. split.
    + now apply (Hm 0%nat).
    + now apply (Hm 1%nat).
  - apply Hbad; discriminate.
Defined.

(** ** C5 *)

(** C5, against the claim: construction with a pacing delay of 0, and with
    a negative one, succeeds. *)
Lemma C5_zero_pause_is_accepted :
  (exists p, __init__ (mkArgs (Str "temp") (Str "b") 0 None "Time" None
                              None None None 0 None) = Ok p
             /\ pause p = 0%Q)
  /\ (exists p, __init__ (mkArgs (Str "temp") (Str "b") 0 None "Time" None
                                 None None None (-1) None) = Ok p
                /\ pause p = (-1)%Q).
Proof. split; eexists; split; reflexivity. Qed.

(** C5, amended: construction does not look at the pacing delay.  With at
    least one name and styles that fit, it succeeds for every delay,
    positive, zero or negative, and stores it as given. *)
Theorem C5_pause_is_stored_unchecked a :
  as_list (a_var a) <> [] ->
  List.length (as_list (a_fmt a)) = 1%nat
  \/ List.length (as_list (a_fmt a)) = List.length (as_list (a_var a)) ->
  exists p, __init__ a = Ok p /\ pause p = a_pause a.
Proof.
  intros Hne Hf. destruct (init_ok a Hne Hf) as [p Hp].
  exists p. split; [exact Hp|].
  now destruct (init_inv a p Hp) as (_ & _ & _ & _ & _ & _ & _ & _ & _ & H & _).
Qed.

Lemma C5_pause_is_stored_unchecked_witness :
  as_list (a_var (default_args (Str "temp"))) <> []
  /\ (List.length (as_list (a_fmt (default_args (Str "temp")))) = 1%nat
      \/ List.length (as_list (a_fmt (default_args (Str "temp"))))
         = List.length (as_list (a_var (default_args (Str "temp")))))
  /\ exists p, __init__ (default_args (Str "temp")) = Ok p
               /\ pause p = (1 # 1000)%Q.
Proof.
  assert (Hne : as_list (a_var (default_args (Str "temp"))) <> [])
    by discriminate.
  split; [exact Hne|]. split; [now left|].
  exact (C5_pause_is_stored_unchecked (default_args (Str "temp")) Hne
           (or_introl eq_refl)).
Defined.

(** ** A hook call whose read fails *)

Lemma update_missing now env bk p n pre k post :
  wf p -> fig p = Some n ->
  var_names p = pre ++ k :: post -> readable pre env -> Dict.get env k = None ->
  update now env bk p
  = (Raise (AttributeError k),
     set_data (set_time p (time p ++ [now])) (pushes env pre (data p)),
     [Figure n; Clf]).
Proof.
  intros Hwf Hfig Hn Hr Hk.
  rewrite (update_run now env bk p n Hfig), plot_run.
  rewrite (record_sample_fail now env p pre k post); auto. apply Hwf.
Qed.

Lemma hook_outcome c p :
  wf p -> var_names p <> [] ->
  result_of (run_hook c p) = Ok tt
  \/ result_of (run_hook c p) = Raise SystemExit
  \/ (exists attr, result_of (run_hook c p) = Raise (AttributeError attr))
  \/ result_of (run_hook c p) = Raise shape_error.
Proof.
  intros Hwf Hne.
  assert (Hupd : forall now env bk q n,
             wf q -> var_names q <> [] -> fig q = Some n ->
             result_of (update now env bk q) = Ok tt
             \/ result_of (update now env bk q) = Raise SystemExit
             \/ (exists attr,
                   result_of (update now env bk q) = Raise (AttributeError attr))
             \/ result_of (update now env bk q) = Raise shape_error).
  { intros now env bk q n Hq Hnq Hf.
    destruct (readable_or_first_missing (var_names q) env)
      as [Hr|(pre & k & post & Hn & Hr & Hk)].
    - destruct (update_cases now env bk q n Hq Hnq Hf Hr)
        as [(yl & tmin & tmax & _ & _ & _ & E & _)|[k E]]; rewrite E.
      + destruct (get_fignums bk); auto.
      + auto.
    - right. right. left. exists k.
      now rewrite (update_missing now env bk q n pre k post). }
  destruct c as [now env bk|now env bk]; simpl.
  - destruct (start_parts now env bk p) as (-> & _).
    apply (Hupd now env bk _ (new_figure bk)); auto using wf_set_fig.
  - unfold step. destruct (fig p) as [n|] eqn:Hfig.
    + now apply (Hupd now env bk p n).
    + right. right. left. exists "number". now rewrite update_unstarted.
Qed.

Lemma set_axes_limits_ok bk p :
  time p <> [] -> Dict.values (data p) <> [] ->
  Forall (fun s => s <> []) (Dict.values (data p)) ->
  result_of (set_axes_limits bk p) = Ok tt.
Proof.
  intros Ht Hv Hall.
  destruct (limit_values_run bk p Hv Hall) as (yl & Ey & _).
  destruct (limit_times_run p Ht) as (tmin & tmax & _ & _ & Ex).
  unfold set_axes_limits. rewrite (bind_ok _ _ p p p [] eq_refl).
  rewrite (bind_ok _ _ _ _ _ _ Ey), (bind_ok _ _ _ _ _ _ Ex). reflexivity.
Qed.

(** ** C6 *)

(** C6: a [step] on an environment that lacks a tracked attribute raises
    AttributeError.  Once the plotter is started, the exception is the one
    [getattr] raises on the first name that cannot be read; [step] returns
    it as it is, and after clearing the figure makes no further call to the
    backend: nothing is caught, retried or drawn. *)
Theorem C6_missing_attribute_propagates now env bk p name :
  wf p -> In name (var_names p) -> Dict.get env name = None ->
  (exists attr, result_of (step now env bk p) = Raise (AttributeError attr))
  /\ (forall n, fig p = Some n ->
        exists pre k post,
          var_names p = pre ++ k :: post
          /\ readable pre env /\ Dict.get env k = None
          /\ result_of (getattr env k p) = Raise (AttributeError k)
          /\ result_of (step now env bk p) = Raise (AttributeError k)
          /\ trace_of (step now env bk p) = [Figure n; Clf]).
Proof.
  intros Hwf Hin Hmiss.
  destruct (readable_or_first_missing (var_names p) env)
    as [Hr|(pre & k & post & Hn & Hr & Hk)].
  { now elim (Hr name Hin). }
  assert (Hget : result_of (getattr env k p) = Raise (AttributeError k)).
  { unfold getattr. now rewrite Hk. }
  split.
  - unfold step. destruct (fig p) as [n|] eqn:Hfig.
    + exists k. now rewrite (update_missing now env bk p n pre k post).
    + exists "number". now rewrite update_unstarted.
  - intros n Hfig. exists pre, k, post. unfold step.
    rewrite (update_missing now env bk p n pre k post); auto.
    repeat split; auto.
Qed.

Lemma C6_missing_attribute_propagates_witness :
  wf Scenario.running /\ In "temp" (var_names Scenario.running)
  /\ Dict.get Scenario.no_env "temp" = None
  /\ exists attr,
       result_of (step 3 Scenario.no_env Scenario.backend Scenario.running)
       = Raise (AttributeError attr).
Proof.
  assert (Hwf := Scenario.running_wf).
  assert (Hin : In "temp" (var_names Scenario.running)) by (simpl; auto).
  assert (Hmiss : Dict.get Scenario.no_env "temp" = None) by reflexivity.
  repeat (split; [assumption|]).
  exact (proj1 (C6_missing_attribute_propagates 3 Scenario.no_env
                  Scenario.backend Scenario.running "temp" Hwf Hin Hmiss)).
Defined.

(** ** C7 *)

(** C7: on a redraw of a plotter with distinct names, as many values in
    every series as times, and [xlim = (x0, x1)], the time axis is set once, to [min(x0, tmin)] and [max(x1, tmax)], where [tmin] and
    [tmax] are the least and the greatest of all the accumulated times;
    nothing is added or subtracted. *)
Theorem C7_time_limits c p x0 x1 :
  wf p -> var_names p <> [] -> NoDup (var_names p) -> balanced p ->
  ready c p -> readable (var_names p) (hook_env c) ->
  xlim p = Some (x0, x1) ->
  let r := run_hook c p in
  exists tmin tmax,
    is_least Z.le tmin (time (state_of r))
    /\ is_greatest Z.le tmax (time (state_of r))
    /\ xlim_set (trace_of r)
       = [(Qmin x0 (inject_Z tmin), Qmax x1 (inject_Z tmax))].
Proof.
  intros Hwf Hne Hnd Hb Hready Hr Hx r.
  destruct (hook_obs c p Hwf Hne Hnd Hb Hready Hr)
    as (tmin & tmax & L1 & L2 & _ & Ht & _ & _ & _ & X & _).
  fold r in Ht, X. exists tmin, tmax. rewrite Ht, X, Hx. auto.
Qed.

Lemma C7_time_limits_witness :
  wf Scenario.running /\ var_names Scenario.running <> []
  /\ NoDup (var_names Scenario.running) /\ balanced Scenario.running
  /\ ready (Step 3 (Scenario.env 15) Scenario.backend) Scenario.running
  /\ readable (var_names Scenario.running) (Scenario.env 15)
  /\ xlim Scenario.running = Some (0, 2)%Q
  /\ exists tmin tmax,
       is_least Z.le tmin [0; 1; 2; 3] /\ is_greatest Z.le tmax [0; 1; 2; 3]
       /\ xlim_set (trace_of (step 3 (Scenario.env 15) Scenario.backend
                                   Scenario.running))
          = [(Qmin 0 (inject_Z tmin), Qmax 2 (inject_Z tmax))].
Proof.
  assert (Hwf := Scenario.running_wf).
  assert (Hne : var_names Scenario.running <> []) by discriminate.
  assert (Hnd := Scenario.running_nodup).
  assert (Hb := Scenario.running_balanced).
  assert (Hready : ready (Step 3 (Scenario.env 15) Scenario.backend) Scenario.running)
    by discriminate.
  assert (Hr := Scenario.readable_env 15 : readable (var_names Scenario.running) _).
  assert (Hx : xlim Scenario.running = Some (0, 2)%Q) by reflexivity.
  repeat (split; [assumption|]).
  exact (C7_time_limits (Step 3 (Scenario.env 15) Scenario.backend)
           Scenario.running 0%Q 2%Q Hwf Hne Hnd Hb Hready Hr Hx).
Defined.

(** ** C8 *)

Lemma format_05d_nonneg now :
  0 <= now ->
  format_05d now
  = (zeros (5 - String.length (digits (Z.to_N now))) ++ digits (Z.to_N now))%string.
Proof.
  intros H. unfold format_05d.
  destruct (Z.ltb_spec now 0) as [?|_]; [lia|].
  replace (Z.abs_N now) with (Z.to_N now) by lia. reflexivity.
Qed.

Lemma length_zeros k : String.length (zeros k) = k.
Proof. induction k; simpl; congruence. Qed.

Lemma string_length_app (s t : string) :
  String.length (s ++ t) = (String.length s + String.length t)%nat.
Proof. induction s; simpl; congruence. Qed.

Lemma frame_calls_saved now p dir :
  output_dir p = Some dir -> str_truthy dir = true ->
  saved_files (frame_calls now p) = [frame_path dir now].
Proof. intros Hd Ht. unfold frame_calls. now rewrite Hd, Ht. Qed.

Lemma hook_output_dir c p :
  wf p -> output_dir (state_of (run_hook c p)) = output_dir p.
Proof.
  intros Hwf. now destruct (hook_state c p Hwf) as [->|(f & now & env & l & ->)].
Qed.

Lemma hook_draws c p :
  wf p -> var_names p <> [] -> NoDup (var_names p) -> balanced p ->
  ready c p -> readable (var_names p) (hook_env c) ->
  In Draw (trace_of (run_hook c p)).
Proof.
  intros Hwf Hne Hnd Hb Hready Hr.
  assert (Hu : forall now env bk q n,
             wf q -> var_names q <> [] -> NoDup (var_names q) -> balanced q ->
             fig q = Some n -> readable (var_names q) env ->
             In Draw (trace_of (update now env bk q))).
  { intros now env bk q n Hq Hnq Hndq Hbq Hf Hrq.
    destruct (update_ok_run now env bk q n Hq Hnq Hndq Hbq Hf Hrq)
      as (yl & tmin & tmax & _ & _ & _ & E & _).
    rewrite E. unfold trace_of. cbn [snd].
    apply in_or_app. right. apply in_or_app. right. simpl. auto. }
  destruct c as [now env bk|now env bk]; simpl in *.
  - destruct (start_parts now env bk p) as (_ & _ & ->).
    apply in_or_app. right.
    apply (Hu now env bk _ (new_figure bk)); auto using wf_set_fig.
  - destruct (fig p) as [n|] eqn:Hfig; [|congruence].
    now apply (Hu now env bk p n).
Qed.

(** C8, against the claim: a [step] during which the window was closed
    redraws, then leaves through [quit()] before the frame is saved; no file
    is written although [output_dir] is set. *)
Lemma C8_closed_window_writes_no_frame :
  output_dir Scenario.running = Some "frames"
  /\ In Draw (trace_of (step 3 (Scenario.env 15) Scenario.closed Scenario.running))
  /\ result_of (step 3 (Scenario.env 15) Scenario.closed Scenario.running)
     = Raise SystemExit
  /\ saved_files (trace_of (step 3 (Scenario.env 15) Scenario.closed Scenario.running))
     = []
  /\ saved_files (trace_of (step 3 (Scenario.env 15) Scenario.closed Scenario.running))
     <> ["frames/00003.png"].
Proof.
  split; [reflexivity|]. split; [vm_compute; tauto|].
  split; [reflexivity|]. split; [reflexivity|]. discriminate.
Qed.

(** C8, amended: on a plotter with distinct names and as many values in
    every series as times, with [output_dir] set to a non-empty [dir], every
    [start] or [step] call that completes (every tracked attribute is read
    and a figure is still open after the pause) returns and writes exactly one
    file, [dir/{now:05d}.png]; for a time that is not negative the name is
    its decimal digits, zero-filled on the left to at least 5 characters.
    A sequence of such calls writes one file per call, in order. *)
Theorem C8_frame_per_completed_call cs p dir :
  wf p -> var_names p <> [] -> NoDup (var_names p) -> balanced p ->
  output_dir p = Some dir -> str_truthy dir = true ->
  match cs with c :: _ => ready c p | [] => True end ->
  Forall (fun c => readable (var_names p) (hook_env c)
                   /\ get_fignums (hook_backend c) <> []) cs ->
  hooks_results cs p = map (fun _ => Ok tt) cs
  /\ saved_files (hooks_trace cs p) = map (fun c => frame_path dir (hook_now c)) cs
  /\ (forall now,
        frame_path dir now
        = (dir ++ (if ends_with_slash dir then "" else "/")
               ++ format_05d now ++ ".png")%string)
  /\ (forall now, 0 <= now ->
        format_05d now
        = (zeros (5 - String.length (digits (Z.to_N now))) ++ digits (Z.to_N now))%string
        /\ String.length (format_05d now)
           = Nat.max 5 (String.length (digits (Z.to_N now))))
  /\ (forall c,
        ready c p -> readable (var_names p) (hook_env c) ->
        get_fignums (hook_backend c) = [] ->
        result_of (run_hook c p) = Raise SystemExit
        /\ In Draw (trace_of (run_hook c p))
        /\ saved_files (trace_of (run_hook c p)) = []).
Proof.
  intros Hwf Hne Hnd Hb Hdir Htruthy Hready Hcs.
  assert (Hseq : hooks_results cs p = map (fun _ => Ok tt) cs
                 /\ saved_files (hooks_trace cs p)
                    = map (fun c => frame_path dir (hook_now c)) cs).
  { revert p Hwf Hne Hnd Hb Hdir Hready Hcs.
    induction cs as [|c r IH]; intros p Hwf Hne Hnd Hb Hdir Hready Hcs;
      [now split|].
    inversion Hcs as [|? ? [Hr Hopen] Hrest]; subst.
    destruct (hook_obs c p Hwf Hne Hnd Hb Hready Hr)
      as (_ & _ & _ & _ & R & _ & _ & Hfig & _ & _ & F).
    assert (Hnames := hook_names c p Hwf).
    destruct (IH (state_of (run_hook c p))) as [IHr IHs].
    - now apply hook_wf.
    - now rewrite Hnames.
    - now rewrite Hnames.
    - now apply hook_balanced.
    - now rewrite hook_output_dir.
    - destruct r as [|c' r']; [exact I|]. destruct c'; simpl; auto.
    - now rewrite Hnames.
    - simpl. rewrite saved_files_app, IHr, IHs, R, F.
      destruct (get_fignums (hook_backend c)); [congruence|].
      now rewrite (frame_calls_saved _ p dir). }
  destruct Hseq as [Hres Hfiles].
  split; [exact Hres|]. split; [exact Hfiles|]. split; [|split].
  - intros now. unfold frame_path, path_join. rewrite Htruthy. simpl.
    now destruct (ends_with_slash dir).
  - intros now Hnow. rewrite format_05d_nonneg by exact Hnow.
    split; [reflexivity|].
    rewrite string_length_app, length_zeros. lia.
  - intros c Hc Hr Hclosed.
    destruct (hook_obs c p Hwf Hne Hnd Hb Hc Hr)
      as (_ & _ & _ & _ & R & _ & _ & _ & _ & _ & F).
    rewrite R, F, Hclosed. split; [reflexivity|]. split; [|reflexivity].
    apply (hook_draws c p Hwf Hne Hnd Hb Hc Hr).
Qed.

Lemma C8_frame_per_completed_call_witness :
  wf Scenario.fresh /\ var_names Scenario.fresh <> []
  /\ NoDup (var_names Scenario.fresh) /\ balanced Scenario.fresh
  /\ output_dir Scenario.fresh = Some "frames" /\ str_truthy "frames" = true
  /\ ready (Start 0 (Scenario.env 10) Scenario.backend) Scenario.fresh
  /\ Forall (fun c => readable (var_names Scenario.fresh) (hook_env c)
                      /\ get_fignums (hook_backend c) <> []) Scenario.calls
  /\ saved_files (hooks_trace Scenario.calls Scenario.fresh)
     = ["frames/00000.png"; "frames/00001.png"; "frames/00002.png"].
Proof.
  assert (Hwf := init_wf _ _ Scenario.fresh_built).
  assert (Hne : var_names Scenario.fresh <> []) by discriminate.
  assert (Hnd : NoDup (var_names Scenario.fresh)).
  { repeat constructor. intros []. }
  assert (Hb := init_balanced _ _ Scenario.fresh_built).
  assert (Hcs : Forall (fun c => readable (var_names Scenario.fresh) (hook_env c)
                                 /\ get_fignums (hook_backend c) <> [])
                       Scenario.calls).
  { repeat constructor; try apply Scenario.readable_env; discriminate. }
  split; [exact Hwf|]. split; [exact Hne|]. split; [exact Hnd|].
  split; [exact Hb|]. split; [reflexivity|].
  split; [reflexivity|]. split; [exact I|]. split; [exact Hcs|].
  destruct (C8_frame_per_completed_call Scenario.calls Scenario.fresh "frames"
              Hwf Hne Hnd Hb eq_refl eq_refl I Hcs) as (_ & H & _).
  rewrite H. reflexivity.
Defined.

(** ** C9 *)

(** C9: for a plotter constructed with at least one name, in whatever state
    earlier [start] and [step] calls have left it: a call never raises the
    ValueError of [min] or [max] on an empty sequence; when the sample of a
    call has been recorded, the times are not empty, there is a series, and
    no series is empty; and on such an object the limit computation
    returns. *)
Theorem C9_limits_never_see_empty_series a p0 cs :
  __init__ a = Ok p0 -> as_list (a_var a) <> [] ->
  let p := run_hooks cs p0 in
  (forall c,
     result_of (run_hook c p)
     <> Raise (ValueError "min() arg is an empty sequence")
     /\ result_of (run_hook c p)
        <> Raise (ValueError "max() arg is an empty sequence"))
  /\ (forall now env f,
        result_of (record_sample now env (set_fig p f)) = Ok tt ->
        let p' := state_of (record_sample now env (set_fig p f)) in
        time p' <> [] /\ Dict.values (data p') <> []
        /\ Forall (fun s => s <> []) (Dict.values (data p')))
  /\ (forall bk q,
        time q <> [] -> Dict.values (data q) <> [] ->
        Forall (fun s => s <> []) (Dict.values (data q)) ->
        result_of (set_axes_limits bk q) = Ok tt).
Proof.
  intros Hinit Hne p.
  assert (Hwf : wf p) by (apply hooks_wf, (init_wf a), Hinit).
  assert (Hnames : var_names p <> []).
  { unfold p. rewrite hooks_names by apply (init_wf a), Hinit.
    destruct (init_inv a p0 Hinit) as (-> & _). exact Hne. }
  split; [|split].
  - intros c.
    destruct (hook_outcome c p Hwf Hnames) as [H|[H|[[attr H]|H]]];
      rewrite H; split; discriminate.
  - intros now env f Hok p'.
    assert (Hwf' : wf (set_fig p f)) by now apply wf_set_fig.
    destruct (readable_or_first_missing (var_names (set_fig p f)) env)
      as [Hr|(pre & k & post & Hn & Hr & Hk)].
    + subst p'.
      rewrite (record_sample_ok now env (set_fig p f) (wf_data _ Hwf') Hr).
      destruct (sampled_ready now env (set_fig p f) Hwf' Hnames Hr)
        as (Ht & Hd & Hall).
      repeat split; auto. unfold state_of. cbn [fst snd].
      destruct (data (sampled now env (set_fig p f))); [congruence|discriminate].
    + rewrite (record_sample_fail now env _ pre k post (wf_data _ Hwf') Hn Hr Hk)
        in Hok.
      discriminate.
  - intros bk q. apply set_axes_limits_ok.
Qed.

Lemma C9_limits_never_see_empty_series_witness :
  __init__ Scenario.args = Ok Scenario.fresh
  /\ as_list (a_var Scenario.args) <> []
  /\ forall c,
       result_of (run_hook c (run_hooks Scenario.calls Scenario.fresh))
       <> Raise (ValueError "min() arg is an empty sequence")
       /\ result_of (run_hook c (run_hooks Scenario.calls Scenario.fresh))
          <> Raise (ValueError "max() arg is an empty sequence").
Proof.
  assert (Hne : as_list (a_var Scenario.args) <> []) by discriminate.
  split; [reflexivity|]. split; [exact Hne|].
  exact (proj1 (C9_limits_never_see_empty_series Scenario.args Scenario.fresh
                  Scenario.calls eq_refl Hne)).
Defined.

(** There has to be a name: [VariablePlotter([], title="t", ylabel="y",
    ylim=(0, 1), legend="best")] can be built, and its first redraw takes
    [min] of no series at all. *)
Example no_name_no_series :
  exists p0,
    __init__ (mkArgs (Lst []) (Str "b") 0 (Some "t") "Time" (Some "y")
                     None (Some (0, 1)%Q) (Some "best") (1 # 1000) None) = Ok p0
    /\ result_of (start 0 [] Scenario.backend p0)
       = Raise (ValueError "min() arg is an empty sequence").
Proof. eexists. split; reflexivity. Qed.

(** ** C10 *)

Lemma nodup_app_disjoint {A} (l1 l2 : list A) :
  NoDup (l1 ++ l2) -> forall a, In a l1 -> ~ In a l2.
Proof.
  induction l1 as [|x r IH]; simpl; intros Hnd a Hin Hin2; [exact Hin|].
  inversion Hnd as [|? ? Hni Hnd']; subst.
  destruct Hin as [->|Hin].
  - apply Hni, in_app_iff. now right.
  - now apply (IH Hnd' a).
Qed.

(** C10: on a started plotter with distinct names whose series are level,
    a [step] in which the read of the name [k] is the first to fail raises
    AttributeError for [k] and leaves the object changed: the time is
    appended, every name before [k] has got its value, and the series of
    [k] and of every later name are as they were, so that the time series
    is exactly one element longer than each of them. *)
Theorem C10_failing_step_is_not_atomic now env bk p pre k post :
  wf p -> fig p <> None -> NoDup (var_names p) -> balanced p ->
  var_names p = pre ++ k :: post ->
  readable pre env -> Dict.get env k = None ->
  let r := step now env bk p in
  result_of r = Raise (AttributeError k)
  /\ time (state_of r) = time p ++ [now]
  /\ (forall name, In name pre ->
        exists s v, Dict.get (data p) name = Some s
                    /\ Dict.get env name = Some v
                    /\ Dict.get (data (state_of r)) name = Some (s ++ [v]))
  /\ (forall name, In name (k :: post) ->
        exists s, Dict.get (data p) name = Some s
                  /\ Dict.get (data (state_of r)) name = Some s
                  /\ List.length (time (state_of r)) = S (List.length s)).
Proof.
  intros Hwf Hfig Hnd Hb Hn Hr Hk r.
  destruct (fig p) as [n|] eqn:En; [|congruence].
  subst r. unfold step.
  rewrite (update_missing now env bk p n pre k post); auto.
  unfold result_of, state_of. cbn [fst snd]. simpl time. simpl data.
  rewrite Hn in Hnd.
  split; [reflexivity|]. split; [reflexivity|]. split.
  - intros name Hin.
    destruct (Hb name) as (s & Hs & _).
    { rewrite Hn. apply in_app_iff. now left. }
    destruct (Dict.get env name) as [v|] eqn:Ev; [| now elim (Hr name Hin)].
    exists s, v. repeat split; auto.
    apply pushes_in; auto. now apply NoDup_app_remove_r in Hnd.
  - intros name Hin.
    destruct (Hb name) as (s & Hs & Hl).
    { rewrite Hn. apply in_app_iff. now right. }
    exists s. split; [exact Hs|]. split.
    + rewrite pushes_notin; auto. intros Hpre.
      now apply (nodup_app_disjoint _ _ Hnd name).
    + rewrite length_app, Hl. simpl. lia.
Qed.

Module TwoNames.
(** [VariablePlotter(["a", "b"])], started on [a = 1, b = 2]. *)
Definition args : Args := default_args (Lst ["a"; "b"]).
Definition fresh : VariablePlotter :=
  {| var_names := ["a"; "b"]; fmt := [("a", "b"); ("b", "b")]; scrolling := 0;
     title := "a & b"; xlabel := "Time"; ylabel := "a & b";
     xlim := None; ylim := None; legend := None;
     pause := 1 # 1000; output_dir := None; fig := None;
     axes_margin := 1 # 100; time := []; data := [("a", []); ("b", [])] |}.

Lemma two_built : __init__ args = Ok fresh.
Proof. reflexivity. Qed.

Definition calls : list hook :=
  [Start 0 [("a", 1%Q); ("b", 2%Q)] Scenario.backend].
Definition running : VariablePlotter := run_hooks calls fresh.

(** An environment that has lost [b]. *)
Definition env : Env := [("a", 7%Q)].

Lemma two_running_wf : wf running.
Proof. apply hooks_wf, (init_wf args), two_built. Qed.

Lemma two_running_balanced : balanced running.
Proof.
  intros name [<-|[<-|[]]]; eexists; split; reflexivity.
Qed.
End TwoNames.

Lemma C10_failing_step_is_not_atomic_witness :
  wf TwoNames.running /\ fig TwoNames.running <> None
  /\ NoDup (var_names TwoNames.running) /\ balanced TwoNames.running
  /\ var_names TwoNames.running = ["a"] ++ "b" :: []
  /\ readable ["a"] TwoNames.env /\ Dict.get TwoNames.env "b" = None
  /\ result_of (step 1 TwoNames.env Scenario.backend TwoNames.running)
     = Raise (AttributeError "b")
  /\ time (state_of (step 1 TwoNames.env Scenario.backend TwoNames.running))
     = time TwoNames.running ++ [1]
  /\ exists s,
       Dict.get (data TwoNames.running) "b" = Some s
       /\ Dict.get (data (state_of (step 1 TwoNames.env Scenario.backend
                                         TwoNames.running))) "b" = Some s
       /\ List.length (time (state_of (step 1 TwoNames.env Scenario.backend
                                             TwoNames.running)))
          = S (List.length s).
Proof.
  assert (Hwf := TwoNames.two_running_wf).
  assert (Hfig : fig TwoNames.running <> None) by discriminate.
  assert (Hnd : NoDup (var_names TwoNames.running)).
  { repeat constructor; simpl; intuition discriminate. }
  assert (Hb := TwoNames.two_running_balanced).
  assert (Hr : readable ["a"] TwoNames.env).
  { intros name [<-|[]]. discriminate. }
  split; [exact Hwf|]. split; [exact Hfig|]. split; [exact Hnd|].
  split; [exact Hb|]. split; [reflexivity|]. split; [exact Hr|].
  split; [reflexivity|].
  destruct (C10_failing_step_is_not_atomic 1 TwoNames.env Scenario.backend
              TwoNames.running ["a"] "b" [] Hwf Hfig Hnd Hb eq_refl Hr eq_refl)
    as (R & T & _ & L).
  split; [exact R|]. split; [exact T|].
  apply (L "b"). now left.
Defined.

(** The series a failed read has left uneven stop the next redraw at its
    first line: after [step(1, b=7)] has failed on [a], [step(2, a=8, b=9)]
    hands [plt.plot] three times and two values. *)
Example uneven_series_stop_the_redraw :
  let p1 := state_of (step 1 [("b", 7%Q)] Scenario.backend TwoNames.running) in
  let r := step 2 [("a", 8%Q); ("b", 9%Q)] Scenario.backend p1 in
  time p1 = [0; 1]
  /\ data p1 = [("a", [1]); ("b", [2])]%Q
  /\ result_of r = Raise shape_error
  /\ trace_of r = [Figure 1; Clf]
  /\ time (state_of r) = [0; 1; 2]
  /\ data (state_of r) = [("a", [1; 8]); ("b", [2; 9])]%Q.
Proof. repeat split. Qed.

(** * Further properties of the class *)

(** ** What a hook can change *)

(** [p'] is [p] with times appended, and with series appended to: the same
    names, styles, settings and figure, the same keys, every old series a
    prefix of the new one. *)
Definition grown (p p' : VariablePlotter) : Prop :=
  exists t d,
    p' = set_data (set_time p (time p ++ t)) d
    /\ Dict.keys d = Dict.keys (data p)
    /\ forall name s, Dict.get (data p) name = Some s ->
         exists u, Dict.get d name = Some (s ++ u).

Lemma grown_refl p : grown p p.
Proof.
  exists [], (data p). split; [|split].
  - rewrite app_nil_r. now destruct p.
  - reflexivity.
  - intros name s H. exists []. now rewrite app_nil_r.
Qed.

Lemma grown_trans p q r : grown p q -> grown q r -> grown p r.
Proof.
  intros (t1 & d1 & -> & K1 & E1) (t2 & d2 & -> & K2 & E2). simpl in *.
  exists (t1 ++ t2), d2. split; [|split].
  - now rewrite app_assoc.
  - congruence.
  - intros name s H. destruct (E1 name s H) as [u1 H1].
    destruct (E2 name _ H1) as [u2 H2].
    exists (u1 ++ u2). now rewrite app_assoc.
Qed.

Lemma grown_append_value env name p :
  grown p (state_of (append_value env name p)).
Proof.
  unfold append_value, bind, self, getitem, getattr.
  destruct (Dict.get (data p) name) as [s|] eqn:Es; [|apply grown_refl].
  destruct (Dict.get env name) as [v|] eqn:Ev; [|apply grown_refl].
  simpl. exists [], (Dict.set (data p) name (s ++ [v])). split; [|split].
  - rewrite app_nil_r. now destruct p.
  - apply DictFacts.keys_set_present. congruence.
  - intros k s' H. destruct (string_dec name k) as [->|Hne].
    + rewrite DictFacts.get_set_same. exists [v]. congruence.
    + rewrite DictFacts.get_set_other by assumption.
      exists []. now rewrite app_nil_r.
Qed.

Lemma grown_loop env names p :
  grown p (state_of (for_each names (append_value env) p)).
Proof.
  revert p. induction names as [|n r IH]; intros p; [apply grown_refl|].
  simpl for_each. rewrite state_bind.
  destruct (result_of (append_value env n p)).
  - eapply grown_trans; [apply grown_append_value | apply IH].
  - apply grown_append_value.
Qed.

Lemma grown_record_sample now env p :
  grown p (state_of (record_sample now env p)).
Proof.
  rewrite record_sample_loop.
  eapply grown_trans; [| apply grown_loop].
  exists [now], (data p). split; [reflexivity|]. split; [reflexivity|].
  intros name s H. exists []. now rewrite app_nil_r.
Qed.

Lemma grown_update now env bk p : grown p (state_of (update now env bk p)).
Proof.
  rewrite update_state. destruct (fig p); [|apply grown_refl].
  apply grown_record_sample.
Qed.

Lemma grown_hook c p :
  grown (match c with
         | Start _ _ bk => set_fig p (Some (new_figure bk))
         | Step _ _ _ => p
         end) (state_of (run_hook c p)).
Proof.
  destruct c as [now env bk|now env bk]; simpl.
  - rewrite start_state. apply grown_record_sample.
  - apply grown_update.
Qed.

(** The same over a sequence of hooks, where [start] may replace the
    figure. *)
Definition evolved (p p' : VariablePlotter) : Prop :=
  exists f t d,
    p' = set_data (set_time (set_fig p f) (time p ++ t)) d
    /\ Dict.keys d = Dict.keys (data p)
    /\ forall name s, Dict.get (data p) name = Some s ->
         exists u, Dict.get d name = Some (s ++ u).

Lemma grown_evolved p f p' : grown (set_fig p f) p' -> evolved p p'.
Proof. intros (t & d & E & K & H). now exists f, t, d. Qed.

Lemma evolved_refl p : evolved p p.
Proof.
  apply (grown_evolved p (fig p)).
  replace (set_fig p (fig p)) with p by now destruct p.
  apply grown_refl.
Qed.

Lemma evolved_trans p q r : evolved p q -> evolved q r -> evolved p r.
Proof.
  intros (f1 & t1 & d1 & -> & K1 & E1) (f2 & t2 & d2 & -> & K2 & E2).
  simpl in *. exists f2, (t1 ++ t2), d2. split; [|split].
  - now rewrite app_assoc.
  - congruence.
  - intros name s H. destruct (E1 name s H) as [u1 H1].
    destruct (E2 name _ H1) as [u2 H2].
    exists (u1 ++ u2). now rewrite app_assoc.
Qed.

Lemma hook_evolved c p : evolved p (state_of (run_hook c p)).
Proof.
  assert (H := grown_hook c p). destruct c as [now env bk|now env bk].
  - exact (grown_evolved _ _ _ H).
  - apply (grown_evolved p (fig p)).
    replace (set_fig p (fig p)) with p by now destruct p. exact H.
Qed.

Lemma hooks_evolved cs p : evolved p (run_hooks cs p).
Proof.
  revert p. induction cs as [|c r IH]; intros p; simpl.
  - apply evolved_refl.
  - eapply evolved_trans; [apply hook_evolved | apply IH].
Qed.

(** Everything of the object that is fixed at construction. *)
Definition same_setup (p p' : VariablePlotter) : Prop :=
  var_names p' = var_names p /\ fmt p' = fmt p /\ scrolling p' = scrolling p
  /\ title p' = title p /\ xlabel p' = xlabel p /\ ylabel p' = ylabel p
  /\ xlim p' = xlim p /\ ylim p' = ylim p /\ legend p' = legend p
  /\ pause p' = pause p /\ output_dir p' = output_dir p
  /\ axes_margin p' = axes_margin p
  /\ Dict.keys (data p') = Dict.keys (data p).

Lemma setup_kept cs p : same_setup p (run_hooks cs p).
Proof.
  destruct (hooks_evolved cs p) as (f & t & d & E & K & _).
  rewrite E. unfold same_setup. simpl. repeat split; auto.
Qed.

(** X1: no sequence of [start] and [step] calls, whatever they are given
    and whatever they raise, changes the names, the styles, the window
    size, the title and labels, the floor limits, the legend, the pause,
    the output directory or the margin, nor the keys of [data]. *)
Theorem hooks_keep_setup cs p : same_setup p (run_hooks cs p).
Proof.
  destruct (hooks_evolved cs p) as (f & t & d & -> & K & _).
  unfold same_setup. simpl. repeat split; auto.
Qed.

(** X2: the recorded history only grows.  After any sequence of [start] and
    [step] calls the old times are a prefix of the times, and the old series
    of every name is a prefix of its series: nothing is dropped or
    rewritten, with or without scrolling, whether or not a call failed. *)
Theorem history_only_grows cs p :
  (exists t, time (run_hooks cs p) = time p ++ t)
  /\ (forall name s, Dict.get (data p) name = Some s ->
        exists u, Dict.get (data (run_hooks cs p)) name = Some (s ++ u)).
Proof.
  destruct (hooks_evolved cs p) as (f & t & d & -> & _ & E).
  simpl. split; [now exists t | exact E].
Qed.

(** ** [step] before [start], and [start] *)

Definition is_step (c : hook) : Prop :=
  match c with
  | Step _ _ _ => True
  | Start _ _ _ => False
  end.

(** X3: on a plotter that was never started, [step] calls do nothing but
    raise: each raises the AttributeError of [self.fig.number] on [None],
    no sample is recorded and the backend is not called. *)
Theorem steps_before_start_do_nothing cs p :
  fig p = None -> Forall is_step cs ->
  run_hooks cs p = p
  /\ hooks_trace cs p = []
  /\ hooks_results cs p = map (fun _ => Raise (AttributeError "number")) cs.
Proof.
  intros Hfig Hcs. induction Hcs as [|c r Hc _ IH]; [now repeat split|].
  destruct c as [|now env bk]; [contradiction|].
  simpl. unfold step. rewrite (update_unstarted now env bk p Hfig).
  unfold state_of, trace_of, result_of. cbn [fst snd].
  destruct IH as (-> & -> & ->). now repeat split.
Qed.

Lemma steps_before_start_do_nothing_witness :
  fig Scenario.fresh = None
  /\ Forall is_step [Step 0 (Scenario.env 10) Scenario.backend;
                     Step 1 (Scenario.env 12) Scenario.backend]
  /\ run_hooks [Step 0 (Scenario.env 10) Scenario.backend;
                Step 1 (Scenario.env 12) Scenario.backend] Scenario.fresh
     = Scenario.fresh.
Proof.
  assert (Hcs : Forall is_step [Step 0 (Scenario.env 10) Scenario.backend;
                                Step 1 (Scenario.env 12) Scenario.backend]).
  { repeat constructor. }
  split; [reflexivity|]. split; [exact Hcs|].
  exact (proj1 (steps_before_start_do_nothing _ Scenario.fresh eq_refl Hcs)).
Defined.


(** ** The samples *)

Lemma hook_sample c p :
  wf p -> ready c p -> readable (var_names p) (hook_env c) ->
  time (state_of (run_hook c p)) = time p ++ [hook_now c]
  /\ data (state_of (run_hook c p)) = pushes (hook_env c) (var_names p) (data p)
  /\ fig (state_of (run_hook c p)) <> None.
Proof.
  intros Hwf Hready Hr. destruct c as [now env bk|now env bk]; simpl in *.
  - rewrite start_state.
    rewrite (record_sample_ok now env _
               (wf_data _ (wf_set_fig p (Some (new_figure bk)) Hwf)) Hr).
    simpl. split; [reflexivity|]. split; [reflexivity|]. discriminate.
  - unfold step. rewrite update_state.
    destruct (fig p) eqn:Hfig; [|congruence].
    rewrite (record_sample_ok now env p (wf_data _ Hwf) Hr).
    simpl. rewrite Hfig. split; [reflexivity|]. split; [reflexivity|].
    discriminate.
Qed.

(** X5: what is recorded is what was sampled, in call order.  On a plotter
    with distinct names, a sequence of calls whose reads all succeed (the
    first being a [start] unless the plotter is started) appends to the
    times the [now] of each call, and to the series of every tracked name
    the value the attribute had at each call; this also for the calls that
    end in [quit()]. *)
Theorem samples_recorded_in_order cs p :
  wf p -> NoDup (var_names p) ->
  match cs with c :: _ => ready c p | [] => True end ->
  Forall (fun c => readable (var_names p) (hook_env c)) cs ->
  time (run_hooks cs p) = time p ++ map hook_now cs
  /\ (forall name s,
        In name (var_names p) -> Dict.get (data p) name = Some s ->
        exists vs,
          Dict.get (data (run_hooks cs p)) name = Some (s ++ vs)
          /\ map (fun c => Dict.get (hook_env c) name) cs = map Some vs).
Proof.
  intros Hwf Hnd Hready Hcs. revert p Hwf Hnd Hready Hcs.
  induction cs as [|c r IH]; intros p Hwf Hnd Hready Hcs.
  - simpl. split; [now rewrite app_nil_r|].
    intros name s _ Hs. exists []. now rewrite app_nil_r.
  - inversion Hcs as [|? ? Hr Hrest]; subst.
    destruct (hook_sample c p Hwf Hready Hr) as (Ht & Hd & Hfig).
    assert (Hnames := hook_names c p Hwf).
    destruct (IH (state_of (run_hook c p))) as [IHt IHd].
    + now apply hook_wf.
    + now rewrite Hnames.
    + destruct r as [|c' r']; [exact I|]. destruct c'; simpl; auto.
    + now rewrite Hnames.
    + simpl. split.
      * rewrite IHt, Ht, <- app_assoc. reflexivity.
      * intros name s Hin Hs.
        destruct (Dict.get (hook_env c) name) as [v|] eqn:Ev;
          [| now elim (Hr name Hin)].
        destruct (IHd name (s ++ [v])) as (vs & Hget & Hmap).
        { now rewrite Hnames. }
        { rewrite Hd. now apply pushes_in. }
        exists (v :: vs). rewrite Hget, <- app_assoc. simpl.
        split; [reflexivity | now rewrite Hmap].
Qed.

Lemma samples_recorded_in_order_witness :
  wf Scenario.fresh /\ NoDup (var_names Scenario.fresh)
  /\ ready (Start 0 (Scenario.env 10) Scenario.backend) Scenario.fresh
  /\ Forall (fun c => readable (var_names Scenario.fresh) (hook_env c))
            Scenario.calls
  /\ time (run_hooks Scenario.calls Scenario.fresh) = [] ++ [0; 1; 2].
Proof.
  assert (Hwf := init_wf _ _ Scenario.fresh_built).
  assert (Hnd : NoDup (var_names Scenario.fresh)).
  { repeat constructor. intros []. }
  assert (Hcs : Forall (fun c => readable (var_names Scenario.fresh) (hook_env c))
                       Scenario.calls).
  { repeat constructor; apply Scenario.readable_env. }
  split; [exact Hwf|]. split; [exact Hnd|]. split; [exact I|].
  split; [exact Hcs|].
  exact (proj1 (samples_recorded_in_order Scenario.calls Scenario.fresh
                  Hwf Hnd I Hcs)).
Defined.

(** ** More on the window *)

Lemma slice_from_nonneg {A} (start : Z) (l : list A) :
  0 <= start -> slice_from start l = skipn (Z.to_nat start) l.
Proof.
  intros H. unfold slice_from.
  destruct (Z.ltb_spec start 0) as [?|_]; [lia|].
  destruct (Z.le_gt_cases start (Z.of_nat (List.length l))) as [Hle|Hgt].
  - now rewrite Z.min_l.
  - rewrite Z.min_r by lia. rewrite Nat2Z.id, skipn_all.
    symmetry. apply skipn_all2. lia.
Qed.

(** X6: a negative [scrolling] does not keep the newest points: on a
    plotter with distinct names and as many values in every series as times,
    with [scrolling = -k] every redraw draws each series without its [k]
    oldest elements (nothing at all while there are no more than [k]). *)
Theorem negative_scrolling_drops_oldest c p :
  wf p -> var_names p <> [] -> NoDup (var_names p) -> balanced p ->
  ready c p -> readable (var_names p) (hook_env c) ->
  scrolling p < 0 ->
  let r := run_hook c p in
  let k := Z.to_nat (- scrolling p) in
  plotted (trace_of r)
  = map (fun kv => (skipn k (time (state_of r)), skipn k (snd kv), fst kv))
        (data (state_of r)).
Proof.
  intros Hwf Hne Hnd Hb Hready Hr HN r k.
  destruct (hook_obs c p Hwf Hne Hnd Hb Hready Hr)
    as (tmin & tmax & _ & _ & _ & _ & _ & _ & Hp & _).
  fold r in Hp. rewrite Hp. clear Hp.
  assert (Hs : scrolling (state_of r) = scrolling p).
  { destruct (setup_kept [c] p) as (_ & _ & H & _). exact H. }
  unfold select_window. rewrite Hs.
  destruct (Z.eqb_spec (scrolling p) 0) as [?|_]; [lia|]. cbn [negb fst snd].
  unfold Dict.items. rewrite map_map. cbn [fst snd].
  rewrite slice_from_nonneg by lia.
  replace (Z.to_nat (-1 * scrolling p)) with k by (unfold k; f_equal; lia).
  apply map_ext. intros kv. rewrite slice_from_nonneg by lia.
  now replace (Z.to_nat (-1 * scrolling p)) with k by (unfold k; f_equal; lia).
Qed.

Module Backwards.
(** [VariablePlotter("temp", scrolling=-1)], after three samples. *)
Definition fresh : VariablePlotter :=
  {| var_names := ["temp"]; fmt := [("temp", "b")]; scrolling := -1;
     title := "temp"; xlabel := "Time"; ylabel := "temp";
     xlim := None; ylim := None; legend := None;
     pause := 1 # 1000; output_dir := None; fig := None;
     axes_margin := 1 # 100; time := []; data := [("temp", [])] |}.

Lemma backwards_built :
  __init__ (mkArgs (Str "temp") (Str "b") (-1) None "Time" None
                   None None None (1 # 1000) None) = Ok fresh.
Proof. reflexivity. Qed.

Definition running : VariablePlotter := run_hooks Scenario.calls fresh.

Lemma backwards_running_wf : wf running.
Proof. apply hooks_wf, (init_wf _ _ backwards_built). Qed.

Lemma backwards_running_nodup : NoDup (var_names running).
Proof. repeat constructor. intros []. Qed.

Lemma backwards_running_balanced : balanced running.
Proof. intros name [<-|[]]. eexists. split; reflexivity. Qed.
End Backwards.

Lemma negative_scrolling_drops_oldest_witness :
  wf Backwards.running /\ var_names Backwards.running <> []
  /\ NoDup (var_names Backwards.running) /\ balanced Backwards.running
  /\ ready (Step 3 (Scenario.env 15) Scenario.backend) Backwards.running
  /\ readable (var_names Backwards.running) (Scenario.env 15)
  /\ scrolling Backwards.running < 0
  /\ plotted (trace_of (run_hook (Step 3 (Scenario.env 15) Scenario.backend)
                                 Backwards.running))
     = [([1; 2; 3], [12; 9; 15]%Q, "temp")].
Proof.
  assert (Hwf := Backwards.backwards_running_wf).
  assert (Hne : var_names Backwards.running <> []) by discriminate.
  assert (Hnd := Backwards.backwards_running_nodup).
  assert (Hb := Backwards.backwards_running_balanced).
  assert (Hready : ready (Step 3 (Scenario.env 15) Scenario.backend)
                         Backwards.running) by discriminate.
  assert (Hr := Scenario.readable_env 15
                : readable (var_names Backwards.running) _).
  assert (HN : scrolling Backwards.running < 0) by reflexivity.
  repeat (split; [assumption|]).
  rewrite (negative_scrolling_drops_oldest
             (Step 3 (Scenario.env 15) Scenario.backend) Backwards.running
             Hwf Hne Hnd Hb Hready Hr HN).
  reflexivity.
Defined.



(** ** More on the limits *)

(** What the value axis is given, for any number of series: the floor
    merged with two numbers. *)
Lemma limit_values_shape bk p yl :
  limit_values bk p p = (Ok tt, p, yl) ->
  match ylim p with
  | Some (y0, y1) => exists a b, yl = [SetYlim (Qmin y0 a) (Qmax y1 b)]
  | None => yl = []
  end.
Proof.
  unfold limit_values. destruct (ylim p) as [[y0 y1]|].
  - unfold bind, lift, call.
    destruct (py_min list_ltb _) as [lowest|]; [|discriminate].
    destruct (py_min Qltb lowest) as [lo|]; [|discriminate].
    destruct (py_max list_ltb _) as [highest|]; [|discriminate].
    destruct (py_max Qltb highest) as [hi|]; [|discriminate].
    simpl. intros H. injection H as <-.
    rewrite Qpair_min_Qmin, Qpair_max_Qmax. eauto.
  - unfold ret. intros H. now injection H as <-.
Qed.

Definition hook_prefix (c : hook) (p : VariablePlotter) : list event :=
  match c with
  | Start _ _ bk => [Ion; NewFigure (new_figure bk); SetWindowTitle (title p)]
  | Step _ _ _ => []
  end.

(** The four ways a hook can go: [step] before [start]; a read that fails;
    a redraw; a redraw that stops at a line the backend refuses. *)
Lemma hook_trace_shape c p :
  wf p -> var_names p <> [] ->
  trace_of (run_hook c p) = hook_prefix c p
  \/ (exists n, trace_of (run_hook c p) = hook_prefix c p ++ [Figure n; Clf])
  \/ (exists n yl tmin tmax,
        limit_values (hook_backend c) (state_of (run_hook c p))
                     (state_of (run_hook c p))
        = (Ok tt, state_of (run_hook c p), yl)
        /\ is_least Z.le tmin (time (state_of (run_hook c p)))
        /\ is_greatest Z.le tmax (time (state_of (run_hook c p)))
        /\ readable (var_names p) (hook_env c)
        /\ trace_of (run_hook c p)
           = hook_prefix c p
             ++ [Figure n; Clf]
             ++ render_calls (state_of (run_hook c p)) yl tmin tmax
             ++ [Draw; Pause (pause p)]
             ++ match get_fignums (hook_backend c) with
                | [] => []
                | _ => frame_calls (hook_now c) p
                end)
  \/ (exists n k,
        trace_of (run_hook c p)
        = hook_prefix c p
          ++ [Figure n; Clf]
          ++ lines (state_of (run_hook c p))
                   (fst (select_window (state_of (run_hook c p))))
                   (firstn k (snd (select_window (state_of (run_hook c p)))))).
Proof.
  intros Hwf Hne.
  assert (Hupd : forall now env bk q n,
             wf q -> var_names q <> [] -> fig q = Some n ->
             (exists m, trace_of (update now env bk q) = [Figure m; Clf])
             \/ (exists m yl tmin tmax,
                   limit_values bk (state_of (update now env bk q))
                                (state_of (update now env bk q))
                   = (Ok tt, state_of (update now env bk q), yl)
                   /\ is_least Z.le tmin (time (state_of (update now env bk q)))
                   /\ is_greatest Z.le tmax (time (state_of (update now env bk q)))
                   /\ readable (var_names q) env
                   /\ trace_of (update now env bk q)
                      = [Figure m; Clf]
                        ++ render_calls (state_of (update now env bk q)) yl tmin tmax
                        ++ [Draw; Pause (pause q)]
                        ++ match get_fignums bk with
                           | [] => []
                           | _ => frame_calls now q
                           end)
             \/ (exists m k,
                   trace_of (update now env bk q)
                   = [Figure m; Clf]
                     ++ lines (state_of (update now env bk q))
                          (fst (select_window (state_of (update now env bk q))))
                          (firstn k
                             (snd (select_window
                                     (state_of (update now env bk q))))))).
  { intros now env bk q n Hq Hnq Hf.
    destruct (readable_or_first_missing (var_names q) env)
      as [Hr|(pre & k & post & Hn & Hr & Hk)].
    - right.
      destruct (update_cases now env bk q n Hq Hnq Hf Hr)
        as [(yl & tmin & tmax & _ & L1 & L2 & E & Ey)|[k E]].
      + left. exists n, yl, tmin, tmax. rewrite E.
        unfold state_of, trace_of. cbn [fst snd]. auto.
      + right. exists n, k. rewrite E.
        unfold state_of, trace_of. cbn [fst snd]. reflexivity.
    - left. exists n.
      now rewrite (update_missing now env bk q n pre k post). }
  destruct c as [now env bk|now env bk]; simpl.
  - destruct (start_parts now env bk p) as (_ & -> & ->).
    destruct (Hupd now env bk (set_fig p (Some (new_figure bk))) (new_figure bk))
      as [[m E]|[(m & yl & tmin & tmax & Ey & L1 & L2 & Hr & E)|(m & k & E)]];
      auto using wf_set_fig.
    + right. left. exists m. now rewrite E.
    + right. right. left. exists m, yl, tmin, tmax. rewrite E. auto.
    + right. right. right. exists m, k. now rewrite E.
  - unfold step. destruct (fig p) as [n|] eqn:Hfig.
    + destruct (Hupd now env bk p n Hwf Hne Hfig)
        as [[m E]|[(m & yl & tmin & tmax & Ey & L1 & L2 & Hr & E)|(m & k & E)]].
      * right. left. exists m. exact E.
      * right. right. left. exists m, yl, tmin, tmax. auto.
      * right. right. right. exists m, k. exact E.
    + left. now rewrite update_unstarted.
Qed.

Definition legend_set (tr : list event) : list string :=
  flat_map (fun e => match e with Legend loc => [loc] | _ => [] end) tr.

Lemma legend_set_app t1 t2 :
  legend_set (t1 ++ t2) = legend_set t1 ++ legend_set t2.
Proof. apply flat_map_app. Qed.

Lemma legend_set_lines p xs d : legend_set (lines p xs d) = [].
Proof. induction d as [|kv r IH]; simpl; congruence. Qed.

Lemma yl_shape_obs p yl :
  match ylim p with
  | Some (y0, y1) => exists a b, yl = [SetYlim (Qmin y0 a) (Qmax y1 b)]
  | None => yl = []
  end ->
  (yl = [] \/ exists lo hi, yl = [SetYlim lo hi])
  /\ legend_set yl = []
  /\ (ylim p = None -> yl = []).
Proof.
  destruct (ylim p) as [[y0 y1]|].
  - intros (a & b & ->). split; [right; eauto|]. split; [reflexivity|].
    discriminate.
  - intros ->. auto.
Qed.

Lemma legend_set_render_calls p yl tmin tmax :
  legend_set yl = [] ->
  legend_set (render_calls p yl tmin tmax) = legend_set (legend_calls p).
Proof.
  intros Hyl. unfold render_calls.
  rewrite !legend_set_app, legend_set_lines, Hyl.
  destruct (xlim p) as [[x0 x1]|]; simpl; now rewrite app_nil_r.
Qed.

Lemma frame_calls_quiet now p :
  ylim_set (frame_calls now p) = [] /\ legend_set (frame_calls now p) = []
  /\ (opt_str_truthy (output_dir p) = false ->
      saved_files (frame_calls now p) = []).
Proof.
  unfold frame_calls, opt_str_truthy.
  destruct (output_dir p) as [dir|]; [destruct (str_truthy dir)|];
    repeat split; auto; discriminate.
Qed.

(** X8: nothing is done that was not asked for.  In no [start] or [step]
    call, succeeding or not, does a plotter without [ylim] set the value
    axis, one without [xlim] set the time axis, one without a legend
    location draw a legend, or one without an [output_dir] (or with the
    empty string for it) save a figure. *)
Theorem nothing_unconfigured_is_done c p :
  wf p -> var_names p <> [] ->
  (ylim p = None -> ylim_set (trace_of (run_hook c p)) = [])
  /\ (xlim p = None -> xlim_set (trace_of (run_hook c p)) = [])
  /\ (opt_str_truthy (legend p) = false ->
      legend_set (trace_of (run_hook c p)) = [])
  /\ (opt_str_truthy (output_dir p) = false ->
      saved_files (trace_of (run_hook c p)) = []).
Proof.
  intros Hwf Hne.
  destruct (setup_kept [c] p)
    as (_ & _ & _ & _ & _ & _ & Hx & Hy & Hl & _ & _). simpl in Hx, Hy, Hl.
  assert (Hpre : ylim_set (hook_prefix c p) = []
                 /\ xlim_set (hook_prefix c p) = []
                 /\ legend_set (hook_prefix c p) = []
                 /\ saved_files (hook_prefix c p) = []).
  { destruct c; repeat split. }
  destruct Hpre as (P1 & P2 & P3 & P4).
  destruct (hook_trace_shape c p Hwf Hne)
    as [E|[[n E]|[(n & yl & tmin & tmax & Ey & _ & _ & _ & E)|(n & k & E)]]];
    rewrite E.
  - auto.
  - rewrite ylim_set_app, xlim_set_app, legend_set_app, saved_files_app.
    rewrite P1, P2, P3, P4. simpl. auto.
  - apply limit_values_shape, yl_shape_obs in Ey.
    destruct Ey as (Hshape & Hleg & Hnone). rewrite Hy in Hnone.
    set (q := state_of (run_hook c p)) in *.
    destruct (render_calls_obs q yl tmin tmax Hshape) as (_ & S & X).
    destruct (frame_calls_quiet (hook_now c) p) as (Fy & Fl & Fs).
    destruct (frame_calls_obs (hook_now c) p) as (_ & Fx).
    rewrite !ylim_set_app, !xlim_set_app, !legend_set_app, !saved_files_app.
    rewrite P1, P2, P3, P4, S, X, Hx.
    rewrite ylim_set_render_calls, (legend_set_render_calls q yl _ _ Hleg).
    unfold legend_calls. rewrite Hl. simpl.
    split; [|split; [|split]].
    + intros H. rewrite (Hnone H). simpl.
      destruct (get_fignums (hook_backend c)); auto.
    + intros H. rewrite H. simpl.
      destruct (get_fignums (hook_backend c)); auto.
    + unfold opt_str_truthy. intros H.
      destruct (legend p) as [loc|]; [rewrite H|]; simpl;
        destruct (get_fignums (hook_backend c)); auto.
    + intros H. destruct (get_fignums (hook_backend c)); auto.
  - rewrite !ylim_set_app, !xlim_set_app, !legend_set_app, !saved_files_app.
    rewrite P1, P2, P3, P4.
    rewrite ylim_set_lines, xlim_set_lines, legend_set_lines, saved_files_lines.
    simpl. auto.
Qed.

Lemma nothing_unconfigured_is_done_witness :
  wf TwoNames.running /\ var_names TwoNames.running <> []
  /\ ylim_set (trace_of (run_hook (Step 1 [("a", 3%Q); ("b", 4%Q)] Scenario.backend)
                                  TwoNames.running)) = []
  /\ saved_files (trace_of (run_hook (Step 1 [("a", 3%Q); ("b", 4%Q)] Scenario.backend)
                                     TwoNames.running)) = [].
Proof.
  assert (Hwf := TwoNames.two_running_wf).
  assert (Hne : var_names TwoNames.running <> []) by discriminate.
  split; [exact Hwf|]. split; [exact Hne|].
  destruct (nothing_unconfigured_is_done
              (Step 1 [("a", 3%Q); ("b", 4%Q)] Scenario.backend)
              TwoNames.running Hwf Hne) as (Hy & _ & _ & Hs).
  split; [now apply Hy | now apply Hs].
Defined.

(** A hook whose reads succeed, on level series, redraws. *)
Lemma hook_redraw c p :
  wf p -> var_names p <> [] -> NoDup (var_names p) -> balanced p ->
  ready c p -> readable (var_names p) (hook_env c) ->
  exists n yl tmin tmax,
    fig (state_of (run_hook c p)) = Some n
    /\ limit_values (hook_backend c) (state_of (run_hook c p))
                    (state_of (run_hook c p))
       = (Ok tt, state_of (run_hook c p), yl)
    /\ is_least Z.le tmin (time (state_of (run_hook c p)))
    /\ is_greatest Z.le tmax (time (state_of (run_hook c p)))
    /\ trace_of (run_hook c p)
       = hook_prefix c p
         ++ [Figure n; Clf]
         ++ render_calls (state_of (run_hook c p)) yl tmin tmax
         ++ [Draw; Pause (pause p)]
         ++ match get_fignums (hook_backend c) with
            | [] => []
            | _ => frame_calls (hook_now c) p
            end.
Proof.
  intros Hwf Hne Hnd Hb Hready Hr.
  destruct c as [now env bk|now env bk]; simpl in *.
  - destruct (start_parts now env bk p) as (_ & -> & ->).
    destruct (update_ok_run now env bk (set_fig p (Some (new_figure bk)))
                (new_figure bk))
      as (yl & tmin & tmax & _ & L1 & L2 & E & Ey);
      auto using wf_set_fig, balanced_set_fig.
    exists (new_figure bk), yl, tmin, tmax. rewrite E.
    unfold state_of, trace_of. cbn [fst snd]. auto.
  - destruct (fig p) as [n|] eqn:Hfig; [|congruence]. unfold step.
    destruct (update_ok_run now env bk p n Hwf Hne Hnd Hb Hfig Hr)
      as (yl & tmin & tmax & _ & L1 & L2 & E & Ey).
    exists n, yl, tmin, tmax. rewrite E.
    unfold state_of, trace_of. cbn [fst snd]. simpl. rewrite Hfig. auto.
Qed.

(** X9: the value axis always covers its floor.  On a redraw of a plotter
    with distinct names, as many values in every series as times, and
    [ylim = (y0, y1)], whatever the number of series, the value axis is set
    exactly once, to limits [lo <= y0] and [hi >= y1]. *)
Theorem value_axis_covers_floor c p y0 y1 :
  wf p -> var_names p <> [] -> NoDup (var_names p) -> balanced p ->
  ready c p -> readable (var_names p) (hook_env c) ->
  ylim p = Some (y0, y1) ->
  exists lo hi,
    ylim_set (trace_of (run_hook c p)) = [(lo, hi)]
    /\ (lo <= y0)%Q /\ (y1 <= hi)%Q.
Proof.
  intros Hwf Hne Hnd Hb Hready Hr Hy.
  destruct (hook_redraw c p Hwf Hne Hnd Hb Hready Hr)
    as (n & yl & tmin & tmax & _ & Ey & _ & _ & E).
  destruct (setup_kept [c] p) as (_ & _ & _ & _ & _ & _ & _ & Hy' & _).
  simpl in Hy'. apply limit_values_shape in Ey. rewrite Hy', Hy in Ey.
  destruct Ey as (a & b & ->).
  exists (Qmin y0 a), (Qmax y1 b). split; [|split].
  - rewrite E, !ylim_set_app, ylim_set_render_calls.
    destruct (frame_calls_quiet (hook_now c) p) as (Fy & _).
    assert (P : ylim_set (hook_prefix c p) = []) by now destruct c.
    rewrite P. simpl. destruct (get_fignums (hook_backend c)); auto.
    now rewrite Fy.
  - apply Q.le_min_l.
  - apply Q.le_max_l.
Qed.

Lemma value_axis_covers_floor_witness :
  wf Scenario.running /\ var_names Scenario.running <> []
  /\ NoDup (var_names Scenario.running) /\ balanced Scenario.running
  /\ ready (Step 3 (Scenario.env 15) Scenario.backend) Scenario.running
  /\ readable (var_names Scenario.running) (Scenario.env 15)
  /\ ylim Scenario.running = Some (0, 10)%Q
  /\ exists lo hi,
       ylim_set (trace_of (run_hook (Step 3 (Scenario.env 15) Scenario.backend)
                                    Scenario.running)) = [(lo, hi)]
       /\ (lo <= 0)%Q /\ (10 <= hi)%Q.
Proof.
  assert (Hwf := Scenario.running_wf).
  assert (Hne : var_names Scenario.running <> []) by discriminate.
  assert (Hnd := Scenario.running_nodup).
  assert (Hb := Scenario.running_balanced).
  assert (Hready : ready (Step 3 (Scenario.env 15) Scenario.backend)
                         Scenario.running) by discriminate.
  assert (Hr := Scenario.readable_env 15
                : readable (var_names Scenario.running) _).
  assert (Hy : ylim Scenario.running = Some (0, 10)%Q) by reflexivity.
  repeat (split; [assumption|]).
  exact (value_axis_covers_floor _ _ 0%Q 10%Q Hwf Hne Hnd Hb Hready Hr Hy).
Defined.

(** X10: the time axis always covers its floor and the whole history.  On
    a redraw of a plotter with distinct names, as many values in every
    series as times, and [xlim = (x0, x1)], the time axis is set exactly once, to limits [lo <= x0] and [hi >= x1] between which every
    recorded time lies, also the times scrolled out of the window. *)
Theorem time_axis_covers_history c p x0 x1 :
  wf p -> var_names p <> [] -> NoDup (var_names p) -> balanced p ->
  ready c p -> readable (var_names p) (hook_env c) ->
  xlim p = Some (x0, x1) ->
  exists lo hi,
    xlim_set (trace_of (run_hook c p)) = [(lo, hi)]
    /\ (lo <= x0)%Q /\ (x1 <= hi)%Q
    /\ forall t, In t (time (state_of (run_hook c p))) ->
         (lo <= inject_Z t)%Q /\ (inject_Z t <= hi)%Q.
Proof.
  intros Hwf Hne Hnd Hb Hready Hr Hx.
  destruct (hook_obs c p Hwf Hne Hnd Hb Hready Hr)
    as (tmin & tmax & L1 & L2 & _ & Ht & _ & _ & _ & X & _).
  rewrite Hx in X. rewrite Ht.
  exists (Qmin x0 (inject_Z tmin)), (Qmax x1 (inject_Z tmax)).
  split; [exact X|]. split; [apply Q.le_min_l|]. split; [apply Q.le_max_l|].
  intros t Hin. split.
  - apply Qle_trans with (inject_Z tmin); [apply Q.le_min_r|].
    rewrite <- Zle_Qle. now apply L1.
  - apply Qle_trans with (inject_Z tmax); [|apply Q.le_max_r].
    rewrite <- Zle_Qle. now apply L2.
Qed.

Lemma time_axis_covers_history_witness :
  wf Scenario.running /\ var_names Scenario.running <> []
  /\ NoDup (var_names Scenario.running) /\ balanced Scenario.running
  /\ ready (Step 3 (Scenario.env 15) Scenario.backend) Scenario.running
  /\ readable (var_names Scenario.running) (Scenario.env 15)
  /\ xlim Scenario.running = Some (0, 2)%Q
  /\ exists lo hi,
       xlim_set (trace_of (run_hook (Step 3 (Scenario.env 15) Scenario.backend)
                                    Scenario.running)) = [(lo, hi)]
       /\ (lo <= 0)%Q /\ (2 <= hi)%Q
       /\ forall t,
            In t (time (state_of (run_hook (Step 3 (Scenario.env 15)
                                                 Scenario.backend)
                                           Scenario.running))) ->
            (lo <= inject_Z t)%Q /\ (inject_Z t <= hi)%Q.
Proof.
  assert (Hwf := Scenario.running_wf).
  assert (Hne : var_names Scenario.running <> []) by discriminate.
  assert (Hnd := Scenario.running_nodup).
  assert (Hb := Scenario.running_balanced).
  assert (Hready : ready (Step 3 (Scenario.env 15) Scenario.backend)
                         Scenario.running) by discriminate.
  assert (Hr := Scenario.readable_env 15
                : readable (var_names Scenario.running) _).
  assert (Hx : xlim Scenario.running = Some (0, 2)%Q) by reflexivity.
  repeat (split; [assumption|]).
  exact (time_axis_covers_history _ _ 0%Q 2%Q Hwf Hne Hnd Hb Hready Hr Hx).
Defined.

(** ** More on the frames *)

(** Reading a frame name back. *)
Definition read_number (s : string) : option N :=
  option_map N.of_uint (NilEmpty.uint_of_string s).

Definition read_05d (s : string) : option Z :=
  match s with
  | String c r =>
      if Ascii.eqb c "-"
      then option_map (fun n => - Z.of_N n) (read_number r)
      else option_map Z.of_N (read_number s)
  | EmptyString => option_map Z.of_N (read_number s)
  end.

Lemma read_digits n : read_number (digits n) = Some n.
Proof.
  unfold read_number, digits.
  assert (Hd : N.to_uint n <> Decimal.Nil).
  { destruct n; [discriminate | apply DecimalPos.Unsigned.to_uint_nonnil]. }
  assert (E : NilZero.string_of_uint (N.to_uint n)
              = NilEmpty.string_of_uint (N.to_uint n)).
  { now destruct (N.to_uint n). }
  rewrite E, NilEmpty.usu. simpl. f_equal. apply DecimalN.Unsigned.of_to.
Qed.

Lemma read_zeros k s : read_number (zeros k ++ s) = read_number s.
Proof.
  induction k as [|k IH]; [reflexivity|].
  rewrite <- IH. unfold read_number. simpl.
  now destruct (NilEmpty.uint_of_string (zeros k ++ s)).
Qed.

Lemma read_minus r : read_number (String "-" r) = None.
Proof.
  unfold read_number. simpl. now destruct (NilEmpty.uint_of_string r).
Qed.

Lemma read_format_05d n : read_05d (format_05d n) = Some n.
Proof.
  unfold format_05d. destruct (Z.ltb_spec n 0) as [Hneg|Hpos].
  - simpl. rewrite read_zeros, read_digits. simpl. f_equal. lia.
  - assert (H := read_zeros (5 - String.length (digits (Z.abs_N n)))
                   (digits (Z.abs_N n))).
    rewrite read_digits in H.
    destruct (zeros _ ++ digits (Z.abs_N n))%string as [|c r] eqn:E.
    + unfold read_05d. rewrite H. simpl. f_equal. lia.
    + unfold read_05d. destruct (Ascii.eqb_spec c "-") as [->|_].
      * rewrite read_minus in H. discriminate.
      * rewrite H. simpl. f_equal. lia.
Qed.

Lemma string_app_inv_head (s x y : string) :
  (s ++ x = s ++ y)%string -> x = y.
Proof. induction s as [|c s IH]; simpl; intros H; [exact H|]. injection H. exact IH. Qed.

Lemma string_app_inv_tail (s x y : string) :
  (x ++ s = y ++ s)%string -> x = y.
Proof.
  revert y. induction x as [|a x IH]; intros [|b y] H; simpl in *.
  - reflexivity.
  - exfalso. apply (f_equal String.length) in H. simpl in H.
    rewrite string_length_app in H. lia.
  - exfalso. apply (f_equal String.length) in H. simpl in H.
    rewrite string_length_app in H. lia.
  - injection H as -> H. f_equal. now apply IH.
Qed.

Lemma frame_path_inj dir n m : frame_path dir n = frame_path dir m -> n = m.
Proof.
  unfold frame_path, path_join. intros H.
  assert (E : (format_05d n ++ ".png")%string = (format_05d m ++ ".png")%string).
  { destruct (negb (str_truthy dir) || ends_with_slash dir)%bool.
    - exact (string_app_inv_head _ _ _ H).
    - apply string_app_inv_head in H. now injection H. }
  apply string_app_inv_tail in E.
  assert (R := read_format_05d n). rewrite E, read_format_05d in R.
  now injection R.
Qed.

(** X11: frames of different times never share a file.  For every
    directory, the paths [save] writes to at two different times differ,
    whatever the sign and the number of digits of the times: a frame is
    overwritten only by a redraw at the same time. *)
Theorem frame_names_are_distinct dir n m :
  n <> m -> frame_path dir n <> frame_path dir m.
Proof. intros Hne H. apply Hne. exact (frame_path_inj dir n m H). Qed.

Lemma frame_names_are_distinct_witness :
  -1 <> 1 /\ frame_path "frames" (-1) <> frame_path "frames" 1.
Proof.
  assert (Hne : -1 <> 1) by discriminate.
  split; [exact Hne|].
  exact (frame_names_are_distinct "frames" (-1) 1 Hne).
Defined.

(** ** The order of the calls *)

(** X12: the calls of a redraw, in order.  On a plotter with distinct
    names and as many values in every series as times, a [start] or [step]
    whose reads succeed selects the figure, clears it, draws one line per series,
    draws the legend if there is one, sets the x and the y label, sets the
    value limits exactly when [ylim] is given and the time limits exactly
    when [xlim] is given, asks for integer ticks, draws, pauses for the
    [pause] of the plotter, and only then, if a figure is still open, saves
    the frame if there is an [output_dir]. *)
Theorem redraw_call_order c p :
  wf p -> var_names p <> [] -> NoDup (var_names p) -> balanced p ->
  ready c p -> readable (var_names p) (hook_env c) ->
  let q := state_of (run_hook c p) in
  exists n yl xl,
    fig q = Some n
    /\ match ylim p with
       | Some (y0, y1) => exists a b, yl = [SetYlim (Qmin y0 a) (Qmax y1 b)]
       | None => yl = []
       end
    /\ match xlim p with
       | Some (x0, x1) => exists a b, xl = [SetXlim (Qmin x0 a) (Qmax x1 b)]
       | None => xl = []
       end
    /\ trace_of (run_hook c p)
       = hook_prefix c p
         ++ [Figure n; Clf]
         ++ lines p (fst (select_window q)) (snd (select_window q))
         ++ legend_calls p
         ++ [SetXlabel (xlabel p); SetYlabel (ylabel p)]
         ++ yl ++ xl
         ++ [SetIntegerLocator; Draw; Pause (pause p)]
         ++ match get_fignums (hook_backend c) with
            | [] => []
            | _ => frame_calls (hook_now c) p
            end.
Proof.
  intros Hwf Hne Hnd Hb Hready Hr q.
  destruct (hook_redraw c p Hwf Hne Hnd Hb Hready Hr)
    as (n & yl & tmin & tmax & Hfig & Ey & _ & _ & E).
  fold q in Hfig, Ey, E.
  destruct (setup_kept [c] p)
    as (_ & Hf & _ & _ & Hxl & Hyl & Hx & Hy & Hl & _). simpl in *.
  fold q in Hf, Hxl, Hyl, Hx, Hy, Hl.
  apply limit_values_shape in Ey. rewrite Hy in Ey.
  exists n, yl,
    (match xlim p with
     | Some (x0, x1) =>
         [SetXlim (Qmin x0 (inject_Z tmin)) (Qmax x1 (inject_Z tmax))]
     | None => []
     end).
  split; [exact Hfig|]. split; [exact Ey|]. split.
  - destruct (xlim p) as [[x0 x1]|]; eauto.
  - rewrite E. unfold render_calls, legend_calls, lines, style.
    rewrite Hf, Hxl, Hyl, Hx, Hl. rewrite <- !app_assoc. reflexivity.
Qed.

Lemma redraw_call_order_witness :
  wf Scenario.running /\ var_names Scenario.running <> []
  /\ NoDup (var_names Scenario.running) /\ balanced Scenario.running
  /\ ready (Step 3 (Scenario.env 15) Scenario.backend) Scenario.running
  /\ readable (var_names Scenario.running) (Scenario.env 15)
  /\ exists yl xl,
       trace_of (run_hook (Step 3 (Scenario.env 15) Scenario.backend)
                          Scenario.running)
       = [Figure 1; Clf; Plot [1; 2; 3] [12; 9; 15]%Q "b" "temp";
          SetXlabel "Time"; SetYlabel "temp"]
         ++ yl ++ xl
         ++ [SetIntegerLocator; Draw; Pause (1 # 1000);
             Savefig "frames/00003.png"].
Proof.
  assert (Hwf := Scenario.running_wf).
  assert (Hne : var_names Scenario.running <> []) by discriminate.
  assert (Hnd := Scenario.running_nodup).
  assert (Hb := Scenario.running_balanced).
  assert (Hready : ready (Step 3 (Scenario.env 15) Scenario.backend)
                         Scenario.running) by discriminate.
  assert (Hr := Scenario.readable_env 15
                : readable (var_names Scenario.running) _).
  repeat (split; [assumption|]).
  destruct (redraw_call_order _ _ Hwf Hne Hnd Hb Hready Hr)
    as (n & yl & xl & Hfig & _ & _ & E).
  exists yl, xl. rewrite E. injection Hfig as <-. reflexivity.
Defined.

(** ** The lines and their styles *)

Lemma keys_set_absent {V} (d : Dict.t V) k v :
  Dict.get d k = None -> Dict.keys (Dict.set d k v) = Dict.keys d ++ [k].
Proof.
  induction d as [|[k' v'] r IH]; simpl; [reflexivity|].
  destruct (String.eqb k k'); [discriminate|]. intros H. simpl.
  f_equal. now apply IH.
Qed.

Lemma keys_fold_set_fresh {V} (l : list (string * V)) (d : Dict.t V) :
  NoDup (Dict.keys d ++ map fst l) ->
  Dict.keys (fold_left (fun d kv => Dict.set d (fst kv) (snd kv)) l d)
  = Dict.keys d ++ map fst l.
Proof.
  revert d. induction l as [|[k v] r IH]; intros d Hnd; simpl in *.
  - now rewrite app_nil_r.
  - assert (Hk : Dict.get d k = None).
    { apply DictFacts.get_none_iff. intros Hin.
      apply NoDup_remove_2 in Hnd. apply Hnd, in_or_app. now left. }
    rewrite IH; rewrite (keys_set_absent d k v Hk), <- app_assoc; auto.
Qed.

Lemma init_keys a p :
  __init__ a = Ok p -> NoDup (as_list (a_var a)) ->
  Dict.keys (data p) = as_list (a_var a).
Proof.
  intros H Hnd. destruct (init_inv a p H) as (_ & _ & -> & _).
  unfold Dict.of_pairs. rewrite keys_fold_set_fresh; simpl;
    rewrite map_map, map_id; auto.
Qed.

Definition drawn_styles (tr : list event) : list (string * string) :=
  flat_map (fun e => match e with
                     | Plot _ _ f label => [(label, f)]
                     | _ => []
                     end) tr.

Lemma drawn_styles_app t1 t2 :
  drawn_styles (t1 ++ t2) = drawn_styles t1 ++ drawn_styles t2.
Proof. apply flat_map_app. Qed.

Lemma drawn_styles_lines p xs d :
  drawn_styles (lines p xs d) = map (fun k => (k, style p k)) (Dict.keys d).
Proof. induction d as [|kv r IH]; simpl; congruence. Qed.

Lemma select_window_keys p :
  Dict.keys (snd (select_window p)) = Dict.keys (data p).
Proof.
  unfold select_window. destruct (negb (scrolling p =? 0)); cbn [snd]; auto.
  unfold Dict.keys, Dict.items. rewrite map_map. reflexivity.
Qed.

Lemma drawn_styles_render_calls q yl tmin tmax :
  drawn_styles yl = [] ->
  drawn_styles (render_calls q yl tmin tmax)
  = map (fun k => (k, style q k)) (Dict.keys (data q)).
Proof.
  intros Y. unfold render_calls, legend_calls.
  rewrite !drawn_styles_app, drawn_styles_lines, select_window_keys, Y.
  destruct (legend q) as [loc|]; [destruct (str_truthy loc)|];
    destruct (xlim q) as [[x0 x1]|]; simpl; now rewrite app_nil_r.
Qed.

(** X13: one line per name, in the order of the names, each in its own
    style.  On every redraw of a plotter constructed with distinct names,
    after calls whose reads all succeeded, the lines are drawn in the order in which the
    names were given, each labelled with its name and drawn with the token
    that construction mapped the name to. *)
Theorem lines_follow_the_names a p0 cs c :
  __init__ a = Ok p0 ->
  NoDup (as_list (a_var a)) -> as_list (a_var a) <> [] ->
  Forall (fun c' => readable (as_list (a_var a)) (hook_env c')) cs ->
  ready c (run_hooks cs p0) ->
  readable (as_list (a_var a)) (hook_env c) ->
  drawn_styles (trace_of (run_hook c (run_hooks cs p0)))
  = map (fun name => (name, style p0 name)) (as_list (a_var a))
  /\ forall name, In name (as_list (a_var a)) ->
       Dict.get (fmt p0) name = Some (style p0 name).
Proof.
  intros Hinit Hnd Hne Hcs Hready Hr.
  assert (Hwf0 := init_wf a p0 Hinit).
  destruct (init_inv a p0 Hinit) as (Hn0 & _).
  assert (Hb : balanced (run_hooks cs p0)).
  { apply hooks_balanced; [exact Hwf0 | now rewrite Hn0 | | now rewrite Hn0].
    exact (init_balanced a p0 Hinit). }
  set (p := run_hooks cs p0) in *.
  assert (Hwf : wf p) by now apply hooks_wf.
  destruct (setup_kept cs p0)
    as (Hn & Hf & _ & _ & _ & _ & _ & _ & _ & _ & _ & _ & Hk).
  fold p in Hn, Hf, Hk.
  destruct (setup_kept [c] p)
    as (_ & Hf' & _ & _ & _ & _ & _ & _ & _ & _ & _ & _ & Hk').
  simpl in Hf', Hk'.
  split.
  - destruct (hook_redraw c p) as (n & yl & tmin & tmax & _ & Ey & _ & _ & E);
      auto; try (rewrite Hn, Hn0; assumption).
    apply limit_values_shape in Ey.
    assert (Y : drawn_styles yl = []).
    { destruct (ylim _) as [[y0 y1]|]; [destruct Ey as (x & y & ->)|subst yl];
        reflexivity. }
    assert (P : drawn_styles (hook_prefix c p) = []) by now destruct c.
    assert (G : drawn_styles
                  match get_fignums (hook_backend c) with
                  | [] => []
                  | _ :: _ => frame_calls (hook_now c) p
                  end = []).
    { destruct (get_fignums _); auto. unfold frame_calls.
      destruct (output_dir p) as [dir|]; auto. now destruct (str_truthy dir). }
    rewrite E, !drawn_styles_app, (drawn_styles_render_calls _ yl _ _ Y), P, G.
    simpl. rewrite app_nil_r, Hk', Hk, (init_keys a p0 Hinit Hnd).
    apply map_ext. intros name. unfold style. now rewrite Hf', Hf.
  - intros name Hin. unfold style.
    destruct (Dict.get (fmt p0) name) eqn:E; [reflexivity|].
    exfalso. apply (wf_fmt p0 Hwf0 name); [congruence | exact E].
Qed.

Lemma lines_follow_the_names_witness :
  __init__ TwoNames.args = Ok TwoNames.fresh
  /\ NoDup (as_list (a_var TwoNames.args))
  /\ as_list (a_var TwoNames.args) <> []
  /\ Forall (fun c' => readable (as_list (a_var TwoNames.args)) (hook_env c'))
            TwoNames.calls
  /\ ready (Step 1 [("a", 3%Q); ("b", 4%Q)] Scenario.backend)
           (run_hooks TwoNames.calls TwoNames.fresh)
  /\ readable (as_list (a_var TwoNames.args)) [("a", 3%Q); ("b", 4%Q)]
  /\ drawn_styles
       (trace_of (run_hook (Step 1 [("a", 3%Q); ("b", 4%Q)] Scenario.backend)
                           (run_hooks TwoNames.calls TwoNames.fresh)))
     = [("a", "b"); ("b", "b")].
Proof.
  assert (Hnd : NoDup (as_list (a_var TwoNames.args))).
  { repeat constructor; simpl; intuition discriminate. }
  assert (Hne : as_list (a_var TwoNames.args) <> []) by discriminate.
  assert (Hcs : Forall (fun c' => readable (as_list (a_var TwoNames.args))
                                           (hook_env c'))
                       TwoNames.calls).
  { repeat constructor. intros name [<-|[<-|[]]]; discriminate. }
  assert (Hready : ready (Step 1 [("a", 3%Q); ("b", 4%Q)] Scenario.backend)
                         (run_hooks TwoNames.calls TwoNames.fresh))
    by discriminate.
  assert (Hr : readable (as_list (a_var TwoNames.args)) [("a", 3%Q); ("b", 4%Q)]).
  { intros name [<-|[<-|[]]]; discriminate. }
  split; [reflexivity|]. repeat (split; [assumption|]).
  rewrite (proj1 (lines_follow_the_names TwoNames.args TwoNames.fresh
                    TwoNames.calls _ eq_refl Hnd Hne Hcs Hready Hr)).
  reflexivity.
Defined.

(** ** One series on the value axis *)

Lemma value_limits_one_series_witness :
  wf Scenario.running /\ var_names Scenario.running = ["temp"]
  /\ axes_margin Scenario.running = 1 # 100
  /\ balanced Scenario.running
  /\ ready (Step 3 (Scenario.env 15) Scenario.backend) Scenario.running
  /\ readable (var_names Scenario.running) (Scenario.env 15)
  /\ ylim Scenario.running = Some (0, 10)%Q
  /\ exists dmin dmax,
       is_least Qle dmin [10; 12; 9; 15]%Q
       /\ is_greatest Qle dmax [10; 12; 9; 15]%Q
       /\ ylim_set (trace_of (run_hook (Step 3 (Scenario.env 15) Scenario.backend)
                                       Scenario.running))
          = [spec_value_limits (0, 10)%Q (0, 1)%Q dmin dmax].
Proof.
  assert (Hwf := Scenario.running_wf).
  assert (Hready : ready (Step 3 (Scenario.env 15) Scenario.backend)
                         Scenario.running) by discriminate.
  assert (Hr := Scenario.readable_env 15
                : readable (var_names Scenario.running) _).
  split; [exact Hwf|]. split; [reflexivity|]. split; [reflexivity|].
  split; [exact Scenario.running_balanced|]. split; [exact Hready|]. split; [exact Hr|]. split; [reflexivity|].
  exact (value_limits_one_series (Step 3 (Scenario.env 15) Scenario.backend)
           Scenario.running "temp" 0%Q 10%Q Hwf eq_refl eq_refl Scenario.running_balanced Hready Hr eq_refl).
Defined.

(** ** How construction ends *)

(** The title or label construction keeps: the one given unless it is
    missing or empty, else the names joined. *)
Definition label_or_names (given : option string) (names : list string) : string :=
  match given with
  | Some s => if str_truthy s then s else str_join " & " names
  | None => str_join " & " names
  end.

(** X15: construction ends in one of three ways.  It fails on the
    assertion when the number of style tokens is neither 1 nor the number
    of names; otherwise, with no name at all, it fails with IndexError as
    soon as the title or the y label is left to its default (the default
    indexes the empty list of names); otherwise it returns a plotter that
    has no figure, no times, an empty series for every name, and as title
    and y label what was given or else the names joined by [" & "]. *)
Theorem construction_outcome a :
  let names := as_list (a_var a) in
  let toks := as_list (a_fmt a) in
  (List.length toks <> 1%nat -> List.length toks <> List.length names ->
   __init__ a = Raise AssertionError)
  /\ (List.length toks = 1%nat \/ List.length toks = List.length names ->
      names = [] ->
      opt_str_truthy (a_title a) = false \/ opt_str_truthy (a_ylabel a) = false ->
      __init__ a = Raise IndexError)
  /\ (List.length toks = 1%nat \/ List.length toks = List.length names ->
      names <> [] \/ (opt_str_truthy (a_title a) = true
                      /\ opt_str_truthy (a_ylabel a) = true) ->
      exists p,
        __init__ a = Ok p
        /\ fig p = None /\ time p = []
        /\ (forall name, In name names -> Dict.get (data p) name = Some [])
        /\ title p = label_or_names (a_title a) names
        /\ ylabel p = label_or_names (a_ylabel a) names).
Proof.
  intros names toks. split; [|split].
  - intros H1 H2. unfold __init__. fold names toks.
    now rewrite (prepare_format_fail names (a_fmt a) H1 H2).
  - intros Hfit Hnil Hdefault. unfold __init__. fold names.
    destruct (prepare_format_ok names (a_fmt a) Hfit) as [-> _].
    rewrite Hnil. unfold rbind, or_default, opt_str_truthy in *. simpl.
    destruct (a_title a) as [t|]; [destruct (str_truthy t)|]; auto.
    destruct Hdefault as [?|Hy]; [discriminate|].
    destruct (a_ylabel a) as [y|]; [destruct (str_truthy y)|]; auto.
    discriminate.
  - intros Hfit Hcan.
    assert (Hinit : exists p, __init__ a = Ok p
                              /\ title p = label_or_names (a_title a) names
                              /\ ylabel p = label_or_names (a_ylabel a) names).
    { unfold __init__. fold names.
      destruct (prepare_format_ok names (a_fmt a) Hfit) as [-> _].
      unfold rbind, or_default, label_or_names, opt_str_truthy in *.
      destruct Hcan as [Hne|[Ht Hy]].
      - rewrite (default_title_ok names Hne).
        destruct (a_title a) as [t|]; [destruct (str_truthy t)|];
          (destruct (a_ylabel a) as [y|]; [destruct (str_truthy y)|]);
          eexists; repeat split; reflexivity.
      - destruct (a_title a) as [t|]; [|discriminate].
        destruct (a_ylabel a) as [y|]; [|discriminate].
        rewrite Ht, Hy. eexists. repeat split; reflexivity. }
    destruct Hinit as (p & Hp & Ht & Hy). exists p.
    destruct (init_inv a p Hp) as (Hn & _ & _ & Htime & Hfig & _).
    repeat split; auto.
    intros name Hin. apply (init_series a p name Hp). now rewrite Hn.
Qed.

(** ** [stop] *)

(** X16: [stop] after [start] closes the figure that [start] made, whether
    or not the redraw of [start] succeeded; it never raises and leaves the
    recorded series as they are. *)
Theorem stop_closes_the_started_figure now env bk p :
  stop (state_of (start now env bk p))
  = (Ok tt, state_of (start now env bk p), [Close (Some (new_figure bk))]).
Proof.
  destruct (grown_hook (Start now env bk) p) as (t & d & E & _).
  simpl in E. unfold stop, bind, self, call. simpl. now rewrite E.
Qed.
